(** * daily-contributor-bot: a shallow embedding and its checked properties

    The bot synchronises a fork with its upstream, writes a dated Markdown
    digest, commits it on a feature branch, pushes it and optionally archives
    its logs.  The Python modules [utils], [config], [content_generator],
    [git_operations], [logger] and [main] are embedded below as functions of
    an explicit world (repository, file system, log, environment); exceptions
    are an explicit outcome.

    Conventions.
    - A Python [str] is a [string]; a character is read as the code point of
      its byte (0..255).
    - A Python [Optional[str]] is an [option string].
    - The libraries the program calls (GitPython, pathlib, os, datetime,
      logging) are not part of the repository; their operations are modelled
      in the sections named "library model", with every failure the
      environment can cause injected through an oracle stored in the world. *)

From Stdlib Require Import ZArith NArith String Ascii List Lia Bool.
From stdpp Require Import base strings gmap list.

Open Scope string_scope.

(* ===================================================================== *)
(** ** Python strings (library model)                                     *)
(* ===================================================================== *)

(** [str.isspace] of one character, on code points below 256: the ASCII
    controls 0x09-0x0D and 0x1C-0x1F, the space, NEL (0x85) and the
    no-break space (0xA0). *)
Definition py_isspace (c : ascii) : bool :=
  let n := N_of_ascii c in
  ((9 <=? n) && (n <=? 13) || (28 <=? n) && (n <=? 32)
   || (n =? 133) || (n =? 160))%N.

(** [str.lower] of one character, on code points below 256: A-Z and the
    Latin-1 capitals 0xC0-0xDE (the multiplication sign 0xD7 apart) move up
    by 32. *)
Definition py_lower_char (c : ascii) : ascii :=
  let n := N_of_ascii c in
  if ((65 <=? n) && (n <=? 90)
      || (192 <=? n) && (n <=? 222) && negb (n =? 215))%N
  then ascii_of_N (n + 32) else c.

Fixpoint py_lower (s : string) : string :=
  match s with
  | EmptyString => EmptyString
  | String c r => String (py_lower_char c) (py_lower r)
  end.

Fixpoint py_lstrip (s : string) : string :=
  match s with
  | EmptyString => EmptyString
  | String c r => if py_isspace c then py_lstrip r else s
  end.

(** Drops the white space at the end: a character is kept when something
    that is kept follows it, or when it is not white space. *)
Fixpoint py_rstrip (s : string) : string :=
  match s with
  | EmptyString => EmptyString
  | String c r =>
      match py_rstrip r with
      | EmptyString => if py_isspace c then EmptyString else String c EmptyString
      | r' => String c r'
      end
  end.

Definition py_strip (s : string) : string := py_rstrip (py_lstrip s).

(** [str(x)] and the [{x}] of an f-string on an optional string. *)
Definition py_str (o : option string) : string :=
  match o with Some s => s | None => "None" end.

(** Truth value of an optional string: [None] and [""] are false. *)
Definition py_truthy (o : option string) : bool :=
  match o with
  | Some (String _ _) => true
  | _ => false
  end.

Definition digit_char (n : N) : ascii := ascii_of_N (48 + n mod 10).

Fixpoint decimal_aux (fuel : nat) (n : N) (acc : string) : string :=
  match fuel with
  | O => acc
  | S f =>
      let acc' := String (digit_char n) acc in
      if (n / 10 =? 0)%N then acc' else decimal_aux f (n / 10)%N acc'
  end.

(** Decimal digits of a natural number, most significant first. *)
Definition decimal (n : N) : string := decimal_aux (S (N.size_nat n)) n "".

Fixpoint repeat_char (c : ascii) (k : nat) : string :=
  match k with O => "" | S k' => String c (repeat_char c k') end.

(** [str.zfill]: pads with zeros on the left up to [width]; never cuts. *)
Definition zfill (width : nat) (s : string) : string :=
  repeat_char "0"%char (width - String.length s) +:+ s.

(** [s.startswith(p)]. *)
Definition startswith (p s : string) : bool := String.prefix p s.

(* ===================================================================== *)
(** ** datetime.date (library model)                                      *)
(* ===================================================================== *)

Record date := mkdate { year : Z; month : Z; day : Z }.

Definition _is_leap (y : Z) : bool :=
  ((y mod 4 =? 0) && (negb (y mod 100 =? 0) || (y mod 400 =? 0)))%Z.

Definition _days_in_month (y m : Z) : Z :=
  (if (m =? 2) && _is_leap y then 29
   else nth (Z.to_nat m) [0; 31; 28; 31; 30; 31; 30; 31; 31; 30; 31; 30; 31] 0)%Z.

(** The dates the [date] constructor accepts (MINYEAR = 1, MAXYEAR = 9999). *)
Definition valid_date (d : date) : bool :=
  ((1 <=? year d) && (year d <=? 9999) && (1 <=? month d) && (month d <=? 12)
   && (1 <=? day d) && (day d <=? _days_in_month (year d) (month d)))%Z.

Definition _days_before_year (y : Z) : Z :=
  (let y' := y - 1 in y' * 365 + y' / 4 - y' / 100 + y' / 400)%Z.

Definition _days_before_month (y m : Z) : Z :=
  (nth (Z.to_nat m) [0; 0; 31; 59; 90; 120; 151; 181; 212; 243; 273; 304; 334] 0
   + (if (2 <? m) && _is_leap y then 1 else 0))%Z.

Definition toordinal (d : date) : Z :=
  (_days_before_year (year d) + _days_before_month (year d) (month d) + day d)%Z.

(** Monday is 0. *)
Definition weekday (d : date) : Z := ((toordinal d + 6) mod 7)%Z.

Definition day_names : list string :=
  ["Monday"; "Tuesday"; "Wednesday"; "Thursday"; "Friday"; "Saturday"; "Sunday"].

Definition month_names : list string :=
  ["January"; "February"; "March"; "April"; "May"; "June"; "July"; "August";
   "September"; "October"; "November"; "December"].

(** One directive of [strftime], in the C locale and as the library
    documents it: [%Y] the year on four digits (0001 to 9999), [%m] and
    [%d] on two, [%A] and [%B] the full names; [%%] a percent sign.  Any
    other character after [%] is copied with its [%]. *)
Definition strftime_directive (c : ascii) (d : date) : string :=
  if Ascii.eqb c "Y" then zfill 4 (decimal (Z.to_N (year d)))
  else if Ascii.eqb c "m" then zfill 2 (decimal (Z.to_N (month d)))
  else if Ascii.eqb c "d" then zfill 2 (decimal (Z.to_N (day d)))
  else if Ascii.eqb c "A" then nth (Z.to_nat (weekday d)) day_names ""
  else if Ascii.eqb c "B" then nth (Z.to_nat (month d - 1)) month_names ""
  else if Ascii.eqb c "%" then "%"
  else String "%" (String c "").

Fixpoint strftime (fmt : string) (d : date) : string :=
  match fmt with
  | EmptyString => EmptyString
  | String c rest =>
      if Ascii.eqb c "%" then
        match rest with
        | EmptyString => "%"
        | String k rest' => strftime_directive k d +:+ strftime rest' d
        end
      else String c (strftime rest d)
  end.

(* ===================================================================== *)
(** ** Exceptions and outcomes                                            *)
(* ===================================================================== *)

(** The classes of [Exception] the program and its libraries raise.
    [OSError] stands for itself and its subclasses (FileNotFoundError,
    FileExistsError, ...); [OtherException] for any further subclass of
    [Exception].  None of them is a subclass of another one listed here. *)
Inductive ExcClass :=
  | GitCommandError
  | InvalidGitRepositoryError
  | NoSuchPathError
  | OSError
  | TypeError
  | ValueError
  | OtherException.

Definition is_GitCommandError (e : ExcClass) : bool :=
  match e with GitCommandError => true | _ => false end.

(** [except Exception] matches every class above. *)
Definition is_Exception (e : ExcClass) : bool := true.

(** How a call ends: it returns, it raises, or the interpreter is leaving
    through [sys.exit] (a [SystemExit], which is no [Exception] and which no
    handler of the program catches). *)
Inductive Res (A : Type) :=
  | Ok (a : A)
  | Raise (e : ExcClass)
  | Exit (code : nat).
Arguments Ok {A} a.
Arguments Raise {A} e.
Arguments Exit {A} code.

(* ===================================================================== *)
(** ** pathlib and os.path on POSIX (library model)                       *)
(* ===================================================================== *)

(** A pure path: its root (empty, one slash or two) and its components. *)
Abbreviation Path := (string * list string)%type.

Fixpoint split_slash (s : string) : list string :=
  match s with
  | EmptyString => [""]
  | String c r =>
      let l := split_slash r in
      if Ascii.eqb c "/" then "" :: l
      else match l with
           | h :: t => String c h :: t
           | [] => [String c ""]
           end
  end.

Definition posix_root (s : string) : string :=
  match s with
  | String "/" (String "/" (String "/" _)) => "/"
  | String "/" (String "/" _) => "//"
  | String "/" _ => "/"
  | _ => ""
  end.

Definition keep_part (x : string) : bool :=
  negb (String.eqb x "") && negb (String.eqb x ".").

(** [Path(s)]: empty components and single dots are dropped. *)
Definition Path_of (s : string) : Path :=
  (posix_root s, List.filter keep_part (split_slash s)).

Definition path_name (p : Path) : string := List.last (snd p) "".

Definition path_parent (p : Path) : Path := (fst p, List.removelast (snd p)).

Definition path_with_name (p : Path) (n : string) : Path :=
  (fst p, (List.removelast (snd p) ++ [n])%list).

Fixpoint rfind (c : ascii) (s : string) : option nat :=
  match s with
  | EmptyString => None
  | String x r =>
      match rfind c r with
      | Some i => Some (S i)
      | None => if Ascii.eqb x c then Some O else None
      end
  end.

(** [PurePath.suffix]: from the last dot on, unless that dot is the first
    or the last character of the name. *)
Definition name_suffix (n : string) : string :=
  match rfind "." n with
  | Some i =>
      if (0 <? i)%nat && (i <? String.length n - 1)%nat
      then String.substring i (String.length n - i) n
      else ""
  | None => ""
  end.

Definition path_suffix (p : Path) : string := name_suffix (path_name p).

Fixpoint string_mem (c : ascii) (s : string) : bool :=
  match s with
  | EmptyString => false
  | String x r => Ascii.eqb x c || string_mem c r
  end.

(** [PurePath.with_suffix]: ValueError on a suffix holding a separator, on
    one that is not empty and does not start with a dot, on a lone dot, and
    on a path with an empty name. *)
Definition path_with_suffix (p : Path) (suffix : string) : Res Path :=
  if string_mem "/" suffix then Raise ValueError
  else if negb (String.eqb suffix "") && negb (startswith "." suffix)
          || String.eqb suffix "."
  then Raise ValueError
  else
    let name := path_name p in
    if String.eqb name "" then Raise ValueError
    else
      let old_suffix := name_suffix name in
      let name' :=
        if String.eqb old_suffix "" then name +:+ suffix
        else String.substring 0 (String.length name - String.length old_suffix) name
               +:+ suffix in
      Ok (path_with_name p name').

Definition endswith_slash (s : string) : bool :=
  match String.length s with
  | O => false
  | S k => String.eqb (String.substring k 1 s) "/"
  end.

(** [os.path.join(a, b)]; TypeError when an argument is [None]. *)
Definition os_path_join (a b : option string) : Res string :=
  match a, b with
  | Some a, Some b =>
      if startswith "/" b then Ok b
      else if String.eqb a "" || endswith_slash a then Ok (a +:+ b)
      else Ok (a +:+ "/" +:+ b)
  | _, _ => Raise TypeError
  end.

Fixpoint rsplit_slash (s : string) : string :=
  match s with
  | EmptyString => EmptyString
  | String c r =>
      if string_mem "/" r then rsplit_slash r
      else if Ascii.eqb c "/" then r else s
  end.

(** [os.path.basename]: what follows the last slash. *)
Definition os_path_basename (s : string) : string := rsplit_slash s.

(* ===================================================================== *)
(** ** The file system (library model)                                    *)
(* ===================================================================== *)

Record FS := mkFS {
  files : gmap Path string;   (* regular files and their content *)
  dirs : gset Path            (* directories *)
}.

(** The primitive steps a write goes through.  [FsWrite] appends one
    character to an open file: the finest grain at which a write can stop. *)
Inductive FsOp :=
  | FsMkdir (p : Path) (parents : bool)   (* Path.mkdir(exist_ok=True) *)
  | FsOpenW (p : Path)                    (* open(p, "w"): create or truncate *)
  | FsWrite (p : Path) (c : ascii)
  | FsOpenA (p : Path)                    (* open(p, "a"): create if missing *)
  | FsReplace (src dst : Path).           (* Path.replace: atomic rename *)

(** The path itself and every ancestor of it. *)
Fixpoint ancestors_of (root : string) (parts : list string) (acc : list string)
  : list Path :=
  match parts with
  | [] => [(root, acc)]
  | x :: r => (root, acc) :: ancestors_of root r (acc ++ [x])%list
  end.

Definition with_ancestors (p : Path) : list Path := ancestors_of (fst p) (snd p) [].

Definition is_file (f : FS) (p : Path) : bool := bool_decide (is_Some (files f !! p)).

(** The root and the current directory (no component) always exist. *)
Definition is_dir (f : FS) (p : Path) : bool :=
  bool_decide (p ∈ dirs f) || match snd p with [] => true | _ => false end.

(** [os.path.exists]. *)
Definition path_exists (f : FS) (p : Path) : bool := is_file f p || is_dir f p.

(** What a primitive step does when the operating system lets it through. *)
Definition fs_effect (op : FsOp) (f : FS) : Res unit * FS :=
  match op with
  | FsMkdir p parents =>
      if is_file f p then (Raise OSError, f)
      else if is_dir f p then (Ok tt, f)
      else if parents then
        if existsb (is_file f) (with_ancestors p) then (Raise OSError, f)
        else (Ok tt, mkFS (files f) (dirs f ∪ list_to_set (with_ancestors p)))
      else if is_dir f (path_parent p)
      then (Ok tt, mkFS (files f) (dirs f ∪ {[ p ]}))
      else (Raise OSError, f)
  | FsOpenW p =>
      if is_dir f p || negb (is_dir f (path_parent p)) then (Raise OSError, f)
      else (Ok tt, mkFS (<[ p := "" ]> (files f)) (dirs f))
  | FsWrite p c =>
      match files f !! p with
      | Some old => (Ok tt, mkFS (<[ p := old +:+ String c "" ]> (files f)) (dirs f))
      | None => (Raise OSError, f)
      end
  | FsOpenA p =>
      if is_dir f p || negb (is_dir f (path_parent p)) then (Raise OSError, f)
      else match files f !! p with
           | Some _ => (Ok tt, f)
           | None => (Ok tt, mkFS (<[ p := "" ]> (files f)) (dirs f))
           end
  | FsReplace src dst =>
      match files f !! src with
      | Some data =>
          if is_dir f dst then (Raise OSError, f)
          else (Ok tt, mkFS (<[ dst := data ]> (delete src (files f))) (dirs f))
      | None => (Raise OSError, f)
      end
  end.

(* ===================================================================== *)
(** ** The repository (library model of GitPython)                        *)
(* ===================================================================== *)

(** The calls the program makes on the repository, with their arguments. *)
Inductive GitOp :=
  | OpOpenRepo (path : option string)              (* Repo(path) *)
  | OpCreateRemote (name : option string) (url : string)
  | OpFetch (remote : string)                      (* remote.fetch() *)
  | OpCheckout (name : string)                     (* git checkout name *)
  | OpCheckoutB (name start : string)              (* git checkout -b name start *)
  | OpCreateHead (name : string)                   (* repo.create_head(name) *)
  | OpPull (remote : option string) (branch : string)
  | OpAdd (path : string)                          (* repo.index.add([path]) *)
  | OpCommit (msg : string)                        (* repo.index.commit(msg) *)
  | OpPush (remote branch : string).               (* remote.push(branch) *)

Record Repo := mkRepo {
  working_tree_dir : string;
  heads : list (string * nat);      (* repo.heads: local branches and their commits *)
  refs : list (string * nat);       (* repo.refs: every ref by name; a remote-tracking
                                       ref is listed as <remote>/<branch> *)
  remotes : list (string * string); (* repo.remotes: name and URL *)
  active : option string;           (* the branch checked out; None when detached *)
  head_commit : nat;                (* the commit HEAD resolves to *)
  staged : list string;             (* paths added to the index *)
  commits : list (nat * string * list string);  (* commits made: id, message, paths *)
  next_commit : nat;
  pushed : list (string * string * nat);        (* what reached a remote *)
  trace : list GitOp                (* every call made, the latest first *)
}.

Definition set_heads (r : Repo) hs rs : Repo :=
  mkRepo (working_tree_dir r) hs rs (remotes r) (active r) (head_commit r)
         (staged r) (commits r) (next_commit r) (pushed r) (trace r).
Definition set_remotes (r : Repo) rm : Repo :=
  mkRepo (working_tree_dir r) (heads r) (refs r) rm (active r) (head_commit r)
         (staged r) (commits r) (next_commit r) (pushed r) (trace r).
Definition set_active (r : Repo) a c : Repo :=
  mkRepo (working_tree_dir r) (heads r) (refs r) (remotes r) a c
         (staged r) (commits r) (next_commit r) (pushed r) (trace r).
Definition set_staged (r : Repo) s : Repo :=
  mkRepo (working_tree_dir r) (heads r) (refs r) (remotes r) (active r) (head_commit r)
         s (commits r) (next_commit r) (pushed r) (trace r).
Definition set_commits (r : Repo) cs n : Repo :=
  mkRepo (working_tree_dir r) (heads r) (refs r) (remotes r) (active r) (head_commit r)
         (staged r) cs n (pushed r) (trace r).
Definition set_pushed (r : Repo) p : Repo :=
  mkRepo (working_tree_dir r) (heads r) (refs r) (remotes r) (active r) (head_commit r)
         (staged r) (commits r) (next_commit r) p (trace r).
Definition record_op (op : GitOp) (r : Repo) : Repo :=
  mkRepo (working_tree_dir r) (heads r) (refs r) (remotes r) (active r) (head_commit r)
         (staged r) (commits r) (next_commit r) (pushed r) (op :: trace r).

Fixpoint assoc {V} (k : string) (l : list (string * V)) : option V :=
  match l with
  | [] => None
  | (k', v) :: t => if String.eqb k' k then Some v else assoc k t
  end.

Definition has_name {V} (k : string) (l : list (string * V)) : bool :=
  existsb (fun kv => String.eqb (fst kv) k) l.

(** Points every entry named [k] at [v]. *)
Definition repoint (k : string) (v : nat) (l : list (string * nat)) : list (string * nat) :=
  map (fun kv => if String.eqb (fst kv) k then (k, v) else kv) l.

(** Sets [k] to [v]: repointed when listed, appended when not. *)
Definition upsert (k : string) (v : nat) (l : list (string * nat)) : list (string * nat) :=
  if has_name k l then repoint k v l else (l ++ [(k, v)])%list.

(** [name in repo.heads]: no branch is found under [None]. *)
Definition in_heads (name : option string) (r : Repo) : bool :=
  match name with
  | Some n => has_name n (heads r)
  | None => false
  end.

(** [name in repo.refs]. *)
Definition in_refs (name : string) (r : Repo) : bool := has_name name (refs r).

(** What each call does to the repository once the environment lets it
    run.  A call that is refused changes nothing; git refuses with
    GitCommandError: a remote without a name or with a name already taken,
    the checkout of an unknown branch, a new branch under a taken name or
    from an unknown start, a pull of a branch the remote does not have, a
    push of an unknown branch.  [create_head] writes the ref itself: on a
    name already taken it does nothing when the branch is at HEAD and
    raises OSError when it is elsewhere.  A pull is modelled as a
    fast-forward to the remote-tracking ref. *)
Definition git_effect (op : GitOp) (fetched : list (string * nat)) (r : Repo)
  : Res unit * Repo :=
  match op with
  | OpOpenRepo _ => (Ok tt, r)
  | OpCreateRemote name url =>
      match name with
      | Some n =>
          if has_name n (remotes r) then (Raise GitCommandError, r)
          else (Ok tt, set_remotes r (remotes r ++ [(n, url)])%list)
      | None => (Raise GitCommandError, r)
      end
  | OpFetch remote =>
      (Ok tt,
       set_heads r (heads r)
         (fold_left (fun acc bc => upsert (remote +:+ "/" +:+ fst bc) (snd bc) acc)
                    fetched (refs r)))
  | OpCheckout name =>
      match assoc name (heads r) with
      | Some c => (Ok tt, set_active r (Some name) c)
      | None => (Raise GitCommandError, r)
      end
  | OpCheckoutB name start =>
      if has_name name (heads r) then (Raise GitCommandError, r)
      else match assoc start (refs r) with
           | Some c =>
               (Ok tt, set_active (set_heads r (heads r ++ [(name, c)])%list
                                             (refs r ++ [(name, c)])%list)
                                  (Some name) c)
           | None => (Raise GitCommandError, r)
           end
  | OpCreateHead name =>
      match assoc name (heads r) with
      | Some c =>
          if Nat.eqb c (head_commit r) then (Ok tt, r) else (Raise OSError, r)
      | None =>
          (Ok tt, set_heads r (heads r ++ [(name, head_commit r)])%list
                            (refs r ++ [(name, head_commit r)])%list)
      end
  | OpPull remote branch =>
      match assoc (py_str remote +:+ "/" +:+ branch) (refs r), active r with
      | Some c, Some b =>
          (Ok tt, set_active (set_heads r (repoint b c (heads r)) (repoint b c (refs r)))
                             (Some b) c)
      | Some c, None => (Ok tt, set_active r None c)
      | None, _ => (Raise GitCommandError, r)
      end
  | OpAdd path => (Ok tt, set_staged r (path :: staged r))
  | OpCommit msg =>
      let c := next_commit r in
      let r1 := set_commits r ((c, msg, staged r) :: commits r) (S c) in
      let r2 := match active r with
                | Some b => set_heads r1 (repoint b c (heads r)) (repoint b c (refs r))
                | None => r1
                end in
      (Ok tt, set_staged (set_active r2 (active r) c) [])
  | OpPush remote branch =>
      match assoc branch (heads r) with
      | Some c => (Ok tt, set_pushed r ((remote, branch, c) :: pushed r))
      | None => (Raise GitCommandError, r)
      end
  end.

(* ===================================================================== *)
(** ** The world                                                          *)
(* ===================================================================== *)

Inductive Level := DEBUG | INFO | WARNING | EXCEPTION.

(** One call on the logger: its level, its format and its arguments. *)
Record LogEntry := mkLog { level : Level; fmt : string; args : list string }.

Definition exc_name (e : ExcClass) : string :=
  match e with
  | GitCommandError => "GitCommandError"
  | InvalidGitRepositoryError => "InvalidGitRepositoryError"
  | NoSuchPathError => "NoSuchPathError"
  | OSError => "OSError"
  | TypeError => "TypeError"
  | ValueError => "ValueError"
  | OtherException => "Exception"
  end.

(** What the program reads from outside and cannot control.  The two
    oracles say, for a call about to run in a given state, whether the
    environment makes it fail and with which exception. *)
Record Env := mkEnv {
  today : date;                        (* date.today() *)
  now_stamp : string;                  (* datetime.now() as %Y%m%d_%H%M%S *)
  utcnow_iso : string;                 (* datetime.utcnow().isoformat() *)
  rand : nat;                          (* the draw behind random.choice *)
  getcwd : string;                     (* os.getcwd() *)
  environ : string -> option string;   (* os.getenv *)
  relpath : string -> string -> string;         (* os.path.relpath *)
  remote_branches : string -> list (string * nat);  (* what a fetch brings *)
  git_fault : Repo -> GitOp -> option ExcClass;
  fs_fault : FS -> FsOp -> option ExcClass
}.

Record World := mkWorld {
  w_env : Env;
  w_repo : Repo;
  w_fs : FS;
  w_log : list LogEntry;      (* the latest call first *)
  w_handlers : nat            (* handlers attached to the logger *)
}.

Definition with_repo (w : World) (r : Repo) : World :=
  mkWorld (w_env w) r (w_fs w) (w_log w) (w_handlers w).
Definition with_fs (w : World) (f : FS) : World :=
  mkWorld (w_env w) (w_repo w) f (w_log w) (w_handlers w).
Definition with_log (w : World) (l : list LogEntry) : World :=
  mkWorld (w_env w) (w_repo w) (w_fs w) l (w_handlers w).
Definition with_handlers (w : World) (h : nat) : World :=
  mkWorld (w_env w) (w_repo w) (w_fs w) (w_log w) h.

(* ===================================================================== *)
(** ** The monad of the program: state and exceptions                     *)
(* ===================================================================== *)

Definition M (A : Type) : Type := World -> Res A * World.

Definition ret {A} (a : A) : M A := fun w => (Ok a, w).

Definition bind {A B} (m : M A) (k : A -> M B) : M B :=
  fun w =>
    match m w with
    | (Ok a, w') => k a w'
    | (Raise e, w') => (Raise e, w')
    | (Exit c, w') => (Exit c, w')
    end.

Definition raise {A} (e : ExcClass) : M A := fun w => (Raise e, w).

(** [sys.exit(code)]. *)
Definition sys_exit {A} (code : nat) : M A := fun w => (Exit code, w).

(** Lifts a pure computation that may raise. *)
Definition lift {A} (r : Res A) : M A := fun w => (r, w).

(** [try: body / except <class> as exc: handler exc].  What the body did
    before it raised stays done. *)
Definition try_except {A} (body : M A) (catches : ExcClass -> bool)
    (handler : ExcClass -> M A) : M A :=
  fun w =>
    match body w with
    | (Raise e, w') => if catches e then handler e w' else (Raise e, w')
    | other => other
    end.

Declare Scope prog_scope.
Delimit Scope prog_scope with prog.
Notation "x <- m ;; k" := (bind m (fun x => k))
  (at level 100, m at next level, right associativity) : prog_scope.
Notation "m ;; k" := (bind m (fun _ => k))
  (at level 100, right associativity) : prog_scope.
Open Scope prog_scope.

Definition get_env : M Env := fun w => (Ok (w_env w), w).
Definition get_repo : M Repo := fun w => (Ok (w_repo w), w).
Definition get_fs : M FS := fun w => (Ok (w_fs w), w).

(** A call on the logger. *)
Definition log (l : Level) (f : string) (a : list string) : M unit :=
  fun w => (Ok tt, with_log w (mkLog l f a :: w_log w)).

(** What a fetch brings from the remote; nothing for the other calls. *)
Definition fetched_by (e : Env) (op : GitOp) : list (string * nat) :=
  match op with
  | OpFetch remote => remote_branches e remote
  | _ => []
  end.

(** A call on the repository: noted, then failed by the environment or run. *)
Definition git (op : GitOp) : M unit :=
  fun w =>
    let r := record_op op (w_repo w) in
    match git_fault (w_env w) r op with
    | Some e => (Raise e, with_repo w r)
    | None =>
        let '(res, r') := git_effect op (fetched_by (w_env w) op) r in
        (res, with_repo w r')
    end.

(** A primitive step on the file system, failed by the environment or run. *)
Definition fsop (op : FsOp) : M unit :=
  fun w =>
    match fs_fault (w_env w) (w_fs w) op with
    | Some e => (Raise e, w)
    | None => let '(res, f') := fs_effect op (w_fs w) in (res, with_fs w f')
    end.

(* ===================================================================== *)
(** ** utils.py                                                           *)
(* ===================================================================== *)

(** [ensure_dir]: [Path(path).mkdir(parents=True, exist_ok=True)]. *)
Definition ensure_dir (p : Path) : M unit := fsop (FsMkdir p true).

Fixpoint run_ops (ops : list FsOp) : M unit :=
  match ops with
  | [] => ret tt
  | op :: rest => fsop op ;; run_ops rest
  end.

(** The primitive steps of the body of [write_text_file] once the temporary
    path is known: open it for writing, write the content one character
    after the other, rename it onto the target. *)
Definition write_steps (tmp_path p : Path) (content : string) : list FsOp :=
  (FsOpenW tmp_path :: map (FsWrite tmp_path) (list_ascii_of_string content)
     ++ [FsReplace tmp_path p])%list.

Definition tmp_path_of (p : Path) : Res Path :=
  path_with_suffix p (path_suffix p +:+ ".tmp").

Definition write_text_file (path : string) (content : string) : M unit :=
  let p := Path_of path in
  ensure_dir (path_parent p) ;;
  tmp_path <- lift (tmp_path_of p) ;;
  run_ops (write_steps tmp_path p content).

Definition iso_date_string (e : Env) (d : option date) : string :=
  let d := match d with Some x => x | None => today e end in
  strftime "%Y%m%d" d.

Definition branch_name_for_date (e : Env) (d : option date) : string :=
  "feature/news-" +:+ iso_date_string e d.

Definition digest_filename_for_date (e : Env) (d : option date) : string :=
  "digest_" +:+ iso_date_string e d +:+ ".md".

Definition write_branch_name_file (repo_root : string) (branch_name : string) : M unit :=
  path <- lift (os_path_join (Some repo_root) (Some "branch_name.txt")) ;;
  write_text_file path branch_name.

(* ===================================================================== *)
(** ** config.py                                                          *)
(* ===================================================================== *)

Record Config := mkConfig {
  repo_owner_alt : option string;
  repo_name_alt : option string;
  repo_url_alt : option string;
  fork_path : option string;
  remote_upstream : option string;
  news_dir : option string;
  enable_log_branch : bool;
  log_branch : option string;
  approved_user : option string
}.

Definition _build_repo_url (owner name : option string) : option string :=
  if py_truthy owner && py_truthy name
  then Some ("https://github.com/" +:+ py_str owner +:+ "/" +:+ py_str name +:+ ".git")
  else None.

Definition _get_bool_env (e : Env) (var_name : string) (default : bool) : bool :=
  match environ e var_name with
  | Some value => String.eqb (py_lower (py_strip value)) "true"
  | None => default
  end.

(** [Config.__init__]. *)
Definition Config_init (e : Env) : Config :=
  let owner := environ e "REPO_OWNER_ALT" in
  let name := environ e "REPO_NAME_ALT" in
  mkConfig owner name (_build_repo_url owner name)
           (environ e "FORK_PATH") (environ e "REMOTE_UPSTREAM") (environ e "NEWS_DIR")
           (_get_bool_env e "ENABLE_LOG_BRANCH" false)
           (environ e "LOG_BRANCH") (environ e "APPROVED_USER").

(* ===================================================================== *)
(** ** content_generator.py                                               *)
(* ===================================================================== *)

Definition nl : string := String (ascii_of_nat 10) "".

Definition headlines : list string :=
  ["Quantum progress: stable qubits announced.";
   "Python 4.0: rumors about stricter typing.";
   "GitHub Copilot improves unit test generation.";
   "Generative AI is reshaping UI/UX design."].

(** [random.choice]: the element at the draw, taken below the length. *)
Definition random_choice (e : Env) (l : list string) : string :=
  nth (rand e mod length l) l "".

(** The template of [_build_content] around a date string and a headline. *)
Definition digest_template (date_str chosen_headline : string) : string :=
  "# Daily Tech Digest - " +:+ date_str +:+ nl +:+ nl
  +:+ "## " +:+ chosen_headline +:+ nl +:+ nl
  +:+ "This digest explores how automation is reshaping developer "
  +:+ "workflows: from CI to automated PR approvals. This repository "
  +:+ "demonstrates an automated content pipeline." +:+ nl +:+ nl
  +:+ "---" +:+ nl +:+ nl
  +:+ "Generated automatically by the daily contributor bot.".

Definition _build_content (e : Env) (d : date) : string :=
  let date_str := strftime "%A, %B %d, %Y" d in
  let chosen_headline := random_choice e headlines in
  digest_template date_str chosen_headline.

Definition generate_daily_content (cfg : Config) (d : option date)
  : M (string * string) :=
  e <- get_env ;;
  let d := match d with Some x => x | None => today e end in
  let branch_name := branch_name_for_date e (Some d) in
  let filename := digest_filename_for_date e (Some d) in
  nd <- lift (os_path_join (fork_path cfg) (news_dir cfg)) ;;
  ensure_dir (Path_of nd) ;;
  file_path <- lift (os_path_join (Some nd) (Some filename)) ;;
  let content := _build_content e d in
  try_except
    (write_text_file file_path content ;;
     log INFO "Generated content at %s" [file_path])
    is_Exception
    (fun exc =>
       log EXCEPTION "Failed to write digest file: %s" [exc_name exc] ;;
       raise exc) ;;
  branch_file_path <- lift (os_path_join (fork_path cfg) (Some "branch_name.txt")) ;;
  try_except
    (write_text_file branch_file_path branch_name ;;
     log DEBUG "Wrote branch_name.txt with %s" [branch_name])
    is_Exception
    (fun exc => log EXCEPTION "Could not persist branch_name.txt: %s" [exc_name exc]) ;;
  ret (branch_name, file_path).

(* ===================================================================== *)
(** ** git_operations.py                                                  *)
(* ===================================================================== *)

(** [repo.create_remote(name, url)].  GitPython expands the URL with
    [os.path.expandvars] before it runs git, which raises TypeError on
    [None]. Returns the name of the remote. *)
Definition create_remote (name url : option string) : M string :=
  match url with
  | None => raise TypeError
  | Some u => git (OpCreateRemote name u) ;; ret (py_str name)
  end.

(** [repo.remote(name)]: ValueError when there is no such remote. *)
Definition repo_remote (name : string) : M string :=
  r <- get_repo ;;
  if has_name name (remotes r) then ret name else raise ValueError.

(** [os.path.relpath(path, start)]: ValueError on an empty path. *)
Definition os_path_relpath (path start : string) : M string :=
  e <- get_env ;;
  if String.eqb path "" then raise ValueError else ret (relpath e path start).

(** [GitManager.__init__]; an injected repository replaces the one on disk. *)
Definition GitManager_init (cfg : Config) (injected : option Repo) : M unit :=
  match injected with
  | Some r => fun w => (Ok tt, with_repo w r)
  | None =>
      try_except
        (git (OpOpenRepo (fork_path cfg)))
        (fun e => match e with InvalidGitRepositoryError => true | _ => false end)
        (fun exc =>
           log EXCEPTION "Invalid Git repository at %s" [py_str (fork_path cfg)] ;;
           raise exc)
  end.

Definition _get_remote (name : option string) : M (option string) :=
  r <- get_repo ;;
  ret (match name with
       | Some n => option_map fst (List.find (fun kv => String.eqb (fst kv) n) (remotes r))
       | None => None
       end).

Definition _checkout_or_create_branch (name : option string) : M unit :=
  r <- get_repo ;;
  if in_heads name r then
    git (OpCheckout (py_str name)) ;;
    log DEBUG "Checked out existing branch %s" [py_str name]
  else
    git (OpCreateHead (py_str name)) ;;
    git (OpCheckout (py_str name)) ;;
    log DEBUG "Created and checked out new branch %s" [py_str name].

Definition main_branch : string := "main".

(** Lines 63-75 of [sync_with_upstream]: the local mainline is resolved. *)
Definition resolve_mainline (cfg : Config) : M unit :=
  r <- get_repo ;;
  if in_heads (Some main_branch) r then
    git (OpCheckout main_branch)
  else if in_refs (py_str (remote_upstream cfg) +:+ "/" +:+ main_branch) r then
    git (OpCheckoutB main_branch (py_str (remote_upstream cfg) +:+ "/" +:+ main_branch))
  else
    git (OpCreateHead main_branch) ;;
    git (OpCheckout main_branch) ;;
    log WARNING "Created 'main' from current HEAD; upstream 'main' not found." [].

(** The body of the [try] of [sync_with_upstream]. *)
Definition sync_body (cfg : Config) : M unit :=
  found <- _get_remote (remote_upstream cfg) ;;
  upstream <- match found with
              | None =>
                  u <- create_remote (remote_upstream cfg) (repo_url_alt cfg) ;;
                  log INFO "Added upstream remote %s -> %s"
                      [py_str (remote_upstream cfg); py_str (repo_url_alt cfg)] ;;
                  ret u
              | Some u => ret u
              end ;;
  git (OpFetch upstream) ;;
  resolve_mainline cfg ;;
  git (OpPull (remote_upstream cfg) main_branch) ;;
  log INFO "Synchronized fork with upstream/%s." [main_branch].

Definition sync_with_upstream (cfg : Config) : M unit :=
  try_except (sync_body cfg) is_GitCommandError
    (fun exc => log WARNING "Could not fully sync with upstream: %s" [exc_name exc]).

(** The body of the [try] of [commit_and_push]. *)
Definition publish_body (branch_name file_path commit_message : string) : M unit :=
  _checkout_or_create_branch (Some branch_name) ;;
  r <- get_repo ;;
  rel <- os_path_relpath file_path (working_tree_dir r) ;;
  git (OpAdd rel) ;;
  git (OpCommit commit_message) ;;
  origin <- repo_remote "origin" ;;
  git (OpPush origin branch_name) ;;
  log INFO "Pushed branch %s to origin" [branch_name].

Definition commit_and_push (branch_name file_path : string)
    (commit_message : option string) : M unit :=
  let commit_message :=
    if py_truthy commit_message then py_str commit_message
    else "feat: add " +:+ os_path_basename file_path in
  try_except (publish_body branch_name file_path commit_message) is_GitCommandError
    (fun exc =>
       log EXCEPTION "Git operation failed: %s" [exc_name exc] ;;
       raise exc).

Definition push_logs_to_branch (cfg : Config) : M unit :=
  try_except
    (let branch_name := log_branch cfg in
     _checkout_or_create_branch branch_name ;;
     e <- get_env ;;
     logs_dir <- lift (os_path_join (Some (getcwd e)) (Some "logs")) ;;
     f <- get_fs ;;
     if negb (path_exists f (Path_of logs_dir)) then
       log INFO "No logs to push." []
     else
       r <- get_repo ;;
       rel_logs_dir <- os_path_relpath logs_dir (working_tree_dir r) ;;
       git (OpAdd rel_logs_dir) ;;
       git (OpCommit ("chore: update logs " +:+ utcnow_iso e)) ;;
       origin <- repo_remote "origin" ;;
       git (OpPush origin (py_str branch_name)) ;;
       log INFO "Logs pushed to branch %s" [py_str branch_name])
    is_Exception
    (fun exc => log WARNING "Could not push logs branch: %s" [exc_name exc]).

(* ===================================================================== *)
(** ** logger.py and main.py                                              *)
(* ===================================================================== *)

Definition setup_logger : M unit :=
  fsop (FsMkdir (Path_of "logs") false) ;;
  e <- get_env ;;
  let log_file := "logs/run_" +:+ now_stamp e +:+ ".log" in
  h <- (fun w => (Ok (w_handlers w), w)) ;;
  if (0 <? h)%nat then ret tt
  else
    fsop (FsOpenA (Path_of log_file)) ;;
    (fun w => (Ok tt, with_handlers w 2)) ;;
    log INFO "Logger initialized: %s" [log_file].

(** The body of the [try] of [main]. *)
Definition workflow (config : Config) : M unit :=
  GitManager_init config None ;;
  sync_with_upstream config ;;
  bf <- generate_daily_content config None ;;
  commit_and_push (fst bf) (snd bf) None ;;
  log INFO "Content branch created and pushed: %s" [fst bf] ;;
  (if enable_log_branch config then push_logs_to_branch config else ret tt) ;;
  log INFO "Workflow finished successfully." [].

Definition main : M unit :=
  setup_logger ;;
  e <- get_env ;;
  let config := Config_init e in
  log INFO "Starting daily contributor workflow." [] ;;
  try_except (workflow config) is_Exception
    (fun exc =>
       log EXCEPTION "Fatal error during workflow: %s" [exc_name exc] ;;
       sys_exit 1).

(** The exit status of the interpreter: 0 after a normal return, the code
    given to [sys.exit], 1 after an exception nothing caught. *)
Definition exit_code {A} (r : Res A) : nat :=
  match r with
  | Ok _ => 0
  | Raise _ => 1
  | Exit c => c
  end.

(* ===================================================================== *)
(** ** Definitions that follow the words of the specification             *)
(* ===================================================================== *)

(** The [width] last decimal digits of [n], the most significant first. *)
Fixpoint zero_padded (width : nat) (n : N) : string :=
  match width with
  | O => ""
  | S w => zero_padded w (n / 10)%N +:+ String (digit_char n) ""
  end.

(** A date as zero-padded YYYYMMDD. *)
Definition YYYYMMDD (d : date) : string :=
  zero_padded 4 (Z.to_N (year d)) +:+ zero_padded 2 (Z.to_N (month d))
  +:+ zero_padded 2 (Z.to_N (day d)).



(* ===================================================================== *)
(** ** Notions used by the statements                                     *)
(* ===================================================================== *)



(** [keeps P m]: whatever way [m] ends, it takes worlds in [P] to worlds
    in [P]. *)
Definition keeps {A} (P : World -> Prop) (m : M A) : Prop :=
  forall w, P w -> P (snd (m w)).

(** How many local branches are named [X]. *)
Definition branch_count (X : string) (r : Repo) : nat :=
  count_occ string_dec (map fst (heads r)) X.

(** No two local branches share a name. *)
Definition heads_distinct (r : Repo) : Prop := List.NoDup (map fst (heads r)).




(** In the environment [E], [m] keeps the environment and ends by
    returning or by raising GitCommandError. *)
Definition git_errors_only (E : Env) {A} (m : M A) : Prop :=
  forall w, w_env w = E ->
    w_env (snd (m w)) = E
    /\ match fst (m w) with
       | Ok _ => True
       | Raise e => e = GitCommandError
       | Exit _ => False
       end.

(** The message [commit_and_push] commits with. *)
Definition commit_message_for (commit_message : option string) (file_path : string)
  : string :=
  if py_truthy commit_message then py_str commit_message
  else "feat: add " +:+ os_path_basename file_path.


(** The line [main] logs before it enters its [try]. *)
Definition starting_line : LogEntry :=
  mkLog INFO "Starting daily contributor workflow." [].

(** A run of [main] started in [w_start] has set up the logger, read the
    configuration [cfg], opened the repository and synchronised it, and is
    in [w] when it generates the content. *)
Definition reaches_generate (w_start : World) (cfg : Config) (w : World) : Prop :=
  exists w0 w1,
    setup_logger w_start = (Ok tt, w0)
    /\ cfg = Config_init (w_env w0)
    /\ GitManager_init cfg None (with_log w0 (starting_line :: w_log w0)) = (Ok tt, w1)
    /\ sync_with_upstream cfg w1 = (Ok tt, w).


(** [write_text_file] cut short after [k] primitive steps of its body. *)
Definition write_text_file_upto (k : nat) (path : string) (content : string) : M unit :=
  let p := Path_of path in
  ensure_dir (path_parent p) ;;
  tmp_path <- lift (tmp_path_of p) ;;
  run_ops (firstn k (write_steps tmp_path p content)).

(** The files a primitive step may change. *)
Definition touches (op : FsOp) (p : Path) : Prop :=
  match op with
  | FsMkdir _ _ => False
  | FsOpenW q | FsWrite q _ | FsOpenA q => q = p
  | FsReplace src dst => src = p \/ dst = p
  end.

(** The file at [p] is [v] ([None]: there is no such file). *)
Definition file_is (p : Path) (v : option string) (w : World) : Prop :=
  files (w_fs w) !! p = v.

(** [m] returns or raises: it never leaves through [sys.exit]. *)
Definition never_exits {A} (m : M A) : Prop :=
  forall w c w', m w <> (Exit c, w').

(** From [w0] to [w] only the file system may have changed: environment,
    repository, log and handlers are the same. *)
Definition same_but_fs (w0 w : World) : Prop :=
  w_env w = w_env w0 /\ w_repo w = w_repo w0 /\ w_log w = w_log w0
  /\ w_handlers w = w_handlers w0.

(** The date a call works for: the one it is given, today without one
    ([d or date.today()]). *)
Definition run_date (w : World) (d : option date) : date :=
  match d with Some x => x | None => today (w_env w) end.

(** The three lines [push_logs_to_branch] can end on. *)
Definition push_logs_line (cfg : Config) (l : LogEntry) : Prop :=
  l = mkLog INFO "No logs to push." []
  \/ l = mkLog INFO "Logs pushed to branch %s" [py_str (log_branch cfg)]
  \/ exists e, l = mkLog WARNING "Could not push logs branch: %s" [exc_name e].

(** The remote [_get_remote] finds under a name. *)
Definition found_remote (name : option string) (r : Repo) : option string :=
  match name with
  | Some n => if has_name n (remotes r) then Some n else None
  | None => None
  end.

(** Lines 58-78 of [sync_with_upstream]: its steps once the remote is
    known. *)
Definition sync_rest (cfg : Config) (upstream : string) : M unit :=
  git (OpFetch upstream) ;;
  resolve_mainline cfg ;;
  git (OpPull (remote_upstream cfg) main_branch) ;;
  log INFO "Synchronized fork with upstream/%s." [main_branch].

(** Lines 49-78 of [sync_with_upstream]: its steps when the remote was not
    found. *)
Definition sync_after_create (cfg : Config) : M unit :=
  match repo_url_alt cfg with
  | None => raise TypeError
  | Some url =>
      git (OpCreateRemote (remote_upstream cfg) url) ;;
      log INFO "Added upstream remote %s -> %s"
          [py_str (remote_upstream cfg); py_str (Some url)] ;;
      sync_rest cfg (py_str (remote_upstream cfg))
  end.




(** A call that creates no remote. *)
Definition no_create (op : GitOp) : Prop :=
  match op with OpCreateRemote _ _ => False | _ => True end.

(** From [w0] to [w] the remotes are the same and no call created one. *)
Definition remotes_kept (w0 w : World) : Prop :=
  remotes (w_repo w) = remotes (w_repo w0)
  /\ exists calls, trace (w_repo w) = (calls ++ trace (w_repo w0))%list
                   /\ Forall no_create calls.





(** From [w0] to [w] what was pushed and what was committed has only
    grown. *)
Definition grown (w0 w : World) : Prop :=
  (exists p, pushed (w_repo w) = (p ++ pushed (w_repo w0))%list)
  /\ (exists c, commits (w_repo w) = (c ++ commits (w_repo w0))%list).

(* ===================================================================== *)
(** ** Sample inputs                                                      *)
(* ===================================================================== *)

Definition date_20251007 : date := mkdate 2025 10 7.

(** An environment in which nothing fails and no variable is set. *)
Definition quiet_env : Env :=
  mkEnv date_20251007 "20251007_060000" "2025-10-07T06:00:00" 0 "/srv/bot"
        (fun _ => None) (fun p _ => p) (fun _ => [])
        (fun _ _ => None) (fun _ _ => None).

Definition with_environ (e : Env) (vars : string -> option string) : Env :=
  mkEnv (today e) (now_stamp e) (utcnow_iso e) (rand e) (getcwd e) vars
        (relpath e) (remote_branches e) (git_fault e) (fs_fault e).

Definition with_rand (e : Env) (n : nat) : Env :=
  mkEnv (today e) (now_stamp e) (utcnow_iso e) n (getcwd e) (environ e)
        (relpath e) (remote_branches e) (git_fault e) (fs_fault e).

(** A fork with a mainline and its origin, nothing staged. *)
Definition sample_repo : Repo :=
  mkRepo "/srv/bot" [("main", 1%nat)] [("main", 1%nat)]
         [("origin", "https://github.com/bot/fork.git")]
         (Some "main") 1 [] [] 2 [] [].

Definition sample_world : World := mkWorld quiet_env sample_repo (mkFS ∅ ∅) [] 0.

(** A fork whose mainline is still missing, after its upstream was fetched. *)
Definition fresh_fork_repo : Repo :=
  mkRepo "/srv/bot" [("master", 1%nat)] [("master", 1%nat); ("upstream/main", 5%nat)]
         [("origin", "https://github.com/bot/fork.git");
          ("upstream", "https://github.com/acme/news.git")]
         (Some "master") 1 [] [] 6 [] [].

Definition fresh_fork_world : World :=
  mkWorld quiet_env fresh_fork_repo (mkFS ∅ ∅) [] 0.

Definition sample_config : Config :=
  mkConfig (Some "acme") (Some "news") (Some "https://github.com/acme/news.git")
           (Some "/srv/bot") (Some "upstream") (Some "news") true (Some "bot-logs") None.

(** The variables of a deployment; the upstream owner and repository name
    are set only when [with_owner] is. *)
Definition bot_environ (with_owner : bool) (k : string) : option string :=
  if String.eqb k "FORK_PATH" then Some "/srv/bot"
  else if String.eqb k "REMOTE_UPSTREAM" then Some "upstream"
  else if String.eqb k "NEWS_DIR" then Some "news"
  else if with_owner && String.eqb k "REPO_OWNER_ALT" then Some "acme"
  else if with_owner && String.eqb k "REPO_NAME_ALT" then Some "news"
  else None.

(** The sample fork, deployed without and with the upstream owner and name;
    there is no remote named upstream yet. *)
Definition unconfigured_world : World :=
  mkWorld (with_environ quiet_env (bot_environ false)) sample_repo (mkFS ∅ ∅) [] 0.

Definition configured_world : World :=
  mkWorld (with_environ quiet_env (bot_environ true)) sample_repo (mkFS ∅ ∅) [] 0.


Definition with_fs_fault (e : Env) (ff : FS -> FsOp -> option ExcClass) : Env :=
  mkEnv (today e) (now_stamp e) (utcnow_iso e) (rand e) (getcwd e) (environ e)
        (relpath e) (remote_branches e) (git_fault e) ff.

(** A world in which the temporary file of branch_name.txt cannot be
    opened, and nothing else fails. *)
Definition sidecar_tmp : Path := ("/", ["srv"; "bot"; "branch_name.txt.tmp"]).

Definition sidecar_fault_world : World :=
  mkWorld (with_fs_fault quiet_env
             (fun _ op => match op with
                          | FsOpenW p => if bool_decide (p = sidecar_tmp)
                                         then Some OSError else None
                          | _ => None
                          end))
          sample_repo (mkFS ∅ ∅) [] 0.

(** A world in which yesterday's text is still under the digest's name. *)
Definition digest_path : Path := ("/", ["srv"; "bot"; "news"; "digest.md"]).

Definition rerun_world : World :=
  mkWorld quiet_env sample_repo
          (mkFS {[ digest_path := "old text" ]}
                {[ ("/", ["srv"; "bot"; "news"]) ]}) [] 0.

(** The log-archival flag when ENABLE_LOG_BRANCH is [v] ([None]: unset). *)
Definition flag_for (v : option string) : bool :=
  enable_log_branch
    (Config_init (with_environ quiet_env
       (fun k => if String.eqb k "ENABLE_LOG_BRANCH" then v else None))).

Definition with_git_fault (e : Env) (gf : Repo -> GitOp -> option ExcClass) : Env :=
  mkEnv (today e) (now_stamp e) (utcnow_iso e) (rand e) (getcwd e) (environ e)
        (relpath e) (remote_branches e) gf (fs_fault e).


(** The sample fork when the upstream cannot be reached: every fetch fails. *)
Definition unreachable_world : World :=
  mkWorld (with_git_fault quiet_env
             (fun _ op => match op with
                          | OpFetch _ => Some GitCommandError
                          | _ => None
                          end))
          fresh_fork_repo (mkFS ∅ ∅) [] 0.

(** The sample fork on another draw of the headline. *)
Definition other_draw_world : World :=
  mkWorld (with_rand quiet_env 3) sample_repo (mkFS ∅ ∅) [] 0.

(** A configuration without a working directory. *)
Definition pathless_config : Config :=
  mkConfig None None None None (Some "upstream") (Some "news") false None None.


(* ===================================================================== *)
(** ** Strings and dates: lemmas                                          *)
(* ===================================================================== *)

Lemma append_cons (c : ascii) (s t : string) :
  String c s +:+ t = String c (s +:+ t).
Proof. reflexivity. Qed.

Lemma append_nil_r (s : string) : s +:+ "" = s.
Proof.
  induction s as [|c s IH]; [reflexivity|].
  now rewrite append_cons, IH.
Qed.

Lemma append_assoc (a b c : string) : (a +:+ b) +:+ c = a +:+ (b +:+ c).
Proof.
  induction a as [|x a IH]; [reflexivity|].
  now rewrite !append_cons, IH.
Qed.

Lemma append_inv_head (s a b : string) : s +:+ a = s +:+ b -> a = b.
Proof.
  induction s as [|c s IH]; intros H; [exact H|].
  rewrite !append_cons in H. injection H as H. auto.
Qed.

Lemma length_append (a b : string) :
  String.length (a +:+ b) = (String.length a + String.length b)%nat.
Proof.
  induction a as [|x a IH]; [reflexivity|].
  rewrite append_cons. simpl. now rewrite IH.
Qed.


(** A number is below two to the number of its bits. *)
Lemma size_nat_bound (n : N) : (n < 2 ^ N.of_nat (N.size_nat n))%N.
Proof.
  destruct n as [|p]; [reflexivity|]. simpl N.size_nat.
  induction p as [p IH|p IH|]; simpl Pos.size_nat;
    rewrite ?Nat2N.inj_succ, ?N.pow_succ_r'; lia.
Qed.

(** Fuel beyond the number of digits changes nothing. *)
Lemma decimal_aux_fuel (f g : nat) (n : N) (acc : string) :
  (n < 10 ^ N.of_nat (S f))%N -> (n < 10 ^ N.of_nat (S g))%N ->
  decimal_aux (S f) n acc = decimal_aux (S g) n acc.
Proof.
  revert g n acc. induction f as [|f IH]; intros g n acc Hf Hg.
  - change (10 ^ N.of_nat 1)%N with 10%N in Hf.
    cbn [decimal_aux]. rewrite (N.div_small n 10 Hf). reflexivity.
  - destruct g as [|g].
    + change (10 ^ N.of_nat 1)%N with 10%N in Hg.
      cbn [decimal_aux]. rewrite (N.div_small n 10 Hg). reflexivity.
    + cbn [decimal_aux]. fold (decimal_aux (S f)). fold (decimal_aux (S g)).
      destruct (n / 10 =? 0)%N; [reflexivity|].
      apply IH.
      * rewrite Nat2N.inj_succ, N.pow_succ_r' in Hf.
        apply N.Div0.div_lt_upper_bound. exact Hf.
      * rewrite Nat2N.inj_succ, N.pow_succ_r' in Hg.
        apply N.Div0.div_lt_upper_bound. exact Hg.
Qed.

Lemma decimal_fuel (n : N) (f : nat) :
  (n < 10 ^ N.of_nat (S f))%N -> decimal n = decimal_aux (S f) n "".
Proof.
  intros H. unfold decimal. apply decimal_aux_fuel; [|exact H].
  pose proof (size_nat_bound n) as Hb.
  rewrite Nat2N.inj_succ, N.pow_succ_r'.
  assert (2 ^ N.of_nat (N.size_nat n) <= 10 ^ N.of_nat (N.size_nat n))%N
    by (apply N.pow_le_mono_l; lia).
  lia.
Qed.

(** Below ten thousand, padding the decimal digits to four gives the four
    last digits; likewise to two below one hundred. *)
Lemma zfill4_decimal (n : N) :
  (n < 10000)%N -> zfill 4 (decimal n) = zero_padded 4 n.
Proof.
  intros H. rewrite (decimal_fuel n 3) by exact H.
  assert (H4 : (n / 10 / 10 / 10 / 10 = 0)%N).
  { rewrite !N.Div0.div_div. apply N.div_small. exact H. }
  cbn [decimal_aux]. rewrite H4. cbn [N.eqb].
  change (zero_padded 4 n)
    with (String (digit_char (n / 10 / 10 / 10))
            (String (digit_char (n / 10 / 10))
               (String (digit_char (n / 10)) (String (digit_char n) "")))).
  destruct (n / 10 =? 0)%N eqn:E1.
  - apply N.eqb_eq in E1. rewrite E1. reflexivity.
  - destruct (n / 10 / 10 =? 0)%N eqn:E2.
    + apply N.eqb_eq in E2. rewrite E2. reflexivity.
    + destruct (n / 10 / 10 / 10 =? 0)%N eqn:E3.
      * apply N.eqb_eq in E3. rewrite E3. reflexivity.
      * reflexivity.
Qed.

Lemma zfill2_decimal (n : N) :
  (n < 100)%N -> zfill 2 (decimal n) = zero_padded 2 n.
Proof.
  intros H. rewrite (decimal_fuel n 1) by exact H.
  assert (H2 : (n / 10 / 10 = 0)%N).
  { rewrite !N.Div0.div_div. apply N.div_small. exact H. }
  cbn [decimal_aux]. rewrite H2. cbn [N.eqb].
  change (zero_padded 2 n)
    with (String (digit_char (n / 10)) (String (digit_char n) "")).
  destruct (n / 10 =? 0)%N eqn:E1.
  - apply N.eqb_eq in E1. rewrite E1. reflexivity.
  - reflexivity.
Qed.

Lemma zfill4_year (z : Z) :
  (0 <= z <= 9999)%Z -> zfill 4 (decimal (Z.to_N z)) = zero_padded 4 (Z.to_N z).
Proof. intros Hz. apply zfill4_decimal. lia. Qed.

Lemma zfill2_small (z : Z) :
  (0 <= z <= 99)%Z -> zfill 2 (decimal (Z.to_N z)) = zero_padded 2 (Z.to_N z).
Proof. intros Hz. apply zfill2_decimal. lia. Qed.

(** The calendar on a few known days. *)
Example date_model_samples :
  strftime "%A, %B %d, %Y" (mkdate 1970 1 1) = "Thursday, January 01, 1970"
  /\ strftime "%A, %B %d, %Y" (mkdate 2000 2 29) = "Tuesday, February 29, 2000"
  /\ strftime "%A, %B %d, %Y" (mkdate 2024 12 31) = "Tuesday, December 31, 2024"
  /\ valid_date (mkdate 2024 2 29) = true
  /\ valid_date (mkdate 2023 2 29) = false
  /\ valid_date (mkdate 1900 2 29) = false
  /\ valid_date (mkdate 2025 13 1) = false.
Proof. repeat split; reflexivity. Qed.

Lemma days_in_month_le (y m : Z) : (_days_in_month y m <= 31)%Z.
Proof.
  unfold _days_in_month.
  destruct ((m =? 2)%Z && _is_leap y); [lia|].
  generalize (Z.to_nat m) as n. intros n.
  do 13 (destruct n as [|n]; [simpl; lia|]).
  simpl. destruct n; lia.
Qed.

Lemma valid_date_bounds (d : date) :
  valid_date d = true ->
  (1 <= year d <= 9999)%Z /\ (1 <= month d <= 12)%Z /\ (1 <= day d <= 31)%Z.
Proof.
  unfold valid_date. intros H.
  repeat (apply andb_prop in H; destruct H as [H ?]).
  pose proof (days_in_month_le (year d) (month d)). lia.
Qed.

Lemma strftime_compact (d : date) :
  strftime "%Y%m%d" d
  = zfill 4 (decimal (Z.to_N (year d))) +:+ zfill 2 (decimal (Z.to_N (month d)))
    +:+ zfill 2 (decimal (Z.to_N (day d))).
Proof.
  change (strftime "%Y%m%d" d)
    with (zfill 4 (decimal (Z.to_N (year d)))
          +:+ zfill 2 (decimal (Z.to_N (month d)))
          +:+ zfill 2 (decimal (Z.to_N (day d))) +:+ "").
  now rewrite append_nil_r.
Qed.

Lemma iso_date_string_code (e : Env) (d : date) :
  valid_date d = true -> iso_date_string e (Some d) = YYYYMMDD d.
Proof.
  intros Hv. destruct (valid_date_bounds d Hv) as (Hy & Hm & Hd).
  unfold iso_date_string, YYYYMMDD. rewrite strftime_compact.
  rewrite zfill4_year, !zfill2_small by lia. reflexivity.
Qed.



Lemma append_inv_tail (a b s : string) : a +:+ s = b +:+ s -> a = b.
Proof.
  revert b. induction a as [|x a IH]; intros [|y b] H.
  - reflexivity.
  - apply (f_equal String.length) in H.
    rewrite !length_append in H. simpl in H. lia.
  - apply (f_equal String.length) in H.
    rewrite !length_append in H. simpl in H. lia.
  - rewrite !append_cons in H. injection H as Hx H. subst y.
    f_equal. now apply IH.
Qed.












Lemma enable_log_branch_flag_samples :
  flag_for None = false /\ flag_for (Some "1") = false
  /\ flag_for (Some "yes") = false /\ flag_for (Some "true") = true
  /\ flag_for (Some "  TRUE ") = true /\ flag_for (Some "t rue") = false
  /\ flag_for (Some "") = false.
Proof.
  repeat split; reflexivity.
Qed.

(* ===================================================================== *)
(** ** The monad: inversion and invariants                                *)
(* ===================================================================== *)

(** An outcome is its result paired with the world it leaves. *)
Lemma outcome_eta {A} (x : Res A * World) (r : Res A) :
  fst x = r -> x = (r, snd x).
Proof. intros <-. now destruct x. Qed.

(** Runs the first [bind] of the goal on the outcome [H] of its first call. *)
Ltac run_bind H :=
  unfold bind at 1; rewrite H; cbn beta iota zeta.

(** Settles how a call on closed inputs ends by running it; the world it
    leaves is named after the call. *)
Ltac by_outcome := apply outcome_eta; vm_compute; reflexivity.

Lemma bind_inv {A B} (m : M A) (k : A -> M B) (w w' : World) (r : Res B) :
  bind m k w = (r, w') ->
  (exists a w1, m w = (Ok a, w1) /\ k a w1 = (r, w'))
  \/ (exists e, m w = (Raise e, w') /\ r = Raise e)
  \/ (exists c, m w = (Exit c, w') /\ r = Exit c).
Proof.
  unfold bind. destruct (m w) as [[a|e|c] w1]; intros H.
  - left. eauto.
  - right. left. injection H as <- <-. eauto.
  - right. right. injection H as <- <-. eauto.
Qed.

Lemma bind_ok {A B} (m : M A) (k : A -> M B) (w w1 : World) (a : A) :
  m w = (Ok a, w1) -> bind m k w = k a w1.
Proof. intros H. unfold bind. now rewrite H. Qed.

Lemma keeps_ret {A} (P : World -> Prop) (a : A) : keeps P (ret a).
Proof. intros w H. exact H. Qed.

Lemma keeps_bind {A B} (P : World -> Prop) (m : M A) (k : A -> M B) :
  keeps P m -> (forall a, keeps P (k a)) -> keeps P (bind m k).
Proof.
  intros Hm Hk w H. unfold bind.
  specialize (Hm w H). destruct (m w) as [[a|e|c] w1]; simpl in *.
  - now apply Hk.
  - exact Hm.
  - exact Hm.
Qed.

Lemma keeps_get_repo (P : World -> Prop) : keeps P get_repo.
Proof. intros w H. exact H. Qed.

(* ===================================================================== *)
(** ** utils.py: the write through a temporary file                       *)
(* ===================================================================== *)

Lemma substring_all (s : string) : String.substring 0 (String.length s) s = s.
Proof. induction s as [|c s IH]; simpl; [reflexivity | now rewrite IH]. Qed.

Lemma substring_split (s : string) (i : nat) :
  (i <= String.length s)%nat ->
  String.substring 0 i s +:+ String.substring i (String.length s - i) s = s.
Proof.
  revert i. induction s as [|c s IH]; intros [|i] Hi.
  - reflexivity.
  - simpl in Hi. lia.
  - rewrite Nat.sub_0_r, substring_all. reflexivity.
  - simpl in Hi. simpl. rewrite append_cons. f_equal. apply IH. lia.
Qed.

Lemma length_substring (s : string) (i k : nat) :
  (i + k <= String.length s)%nat -> String.length (String.substring i k s) = k.
Proof.
  revert i k. induction s as [|c s IH]; intros [|i] [|k] H; simpl in *;
    try reflexivity; try lia.
  - f_equal. apply (IH 0%nat). lia.
  - apply (IH i 0%nat). lia.
  - apply IH. lia.
Qed.

Lemma rfind_lt (c : ascii) (s : string) (i : nat) :
  rfind c s = Some i -> (i < String.length s)%nat.
Proof.
  revert i. induction s as [|x s IH]; intros i H; simpl in *; [discriminate|].
  destruct (rfind c s) as [j|].
  - injection H as <-. specialize (IH j eq_refl). lia.
  - destruct (Ascii.eqb x c); [injection H as <-; lia | discriminate].
Qed.

(** A name is its stem followed by its suffix. *)
Lemma name_suffix_split (n : string) :
  String.substring 0 (String.length n - String.length (name_suffix n)) n
    +:+ name_suffix n = n.
Proof.
  unfold name_suffix. destruct (rfind "." n) as [i|] eqn:E.
  - apply rfind_lt in E.
    destruct ((0 <? i)%nat && (i <? String.length n - 1)%nat).
    + rewrite length_substring by lia.
      replace (String.length n - (String.length n - i))%nat with i by lia.
      apply substring_split. lia.
    + simpl. rewrite Nat.sub_0_r, substring_all. apply append_nil_r.
  - simpl. rewrite Nat.sub_0_r, substring_all. apply append_nil_r.
Qed.

(** Paths and their temporary paths on a few inputs. *)
Example tmp_path_samples :
  Path_of "/srv/bot//news/./digest_20251007.md"
    = ("/", ["srv"; "bot"; "news"; "digest_20251007.md"])
  /\ tmp_path_of (Path_of "/srv/bot/news/digest_20251007.md")
     = Ok ("/", ["srv"; "bot"; "news"; "digest_20251007.md.tmp"])
  /\ tmp_path_of (Path_of "branch_name.txt") = Ok ("", ["branch_name.txt.tmp"])
  /\ tmp_path_of (Path_of "notes") = Ok ("", ["notes.tmp"])
  /\ tmp_path_of (Path_of ".hidden") = Ok ("", [".hidden.tmp"])
  /\ tmp_path_of (Path_of "/") = Raise ValueError
  /\ os_path_join (Some "/srv/bot") (Some "news") = Ok "/srv/bot/news"
  /\ os_path_join (Some "/srv/bot") (Some "/abs") = Ok "/abs"
  /\ os_path_join None (Some "news") = Raise TypeError
  /\ os_path_basename "/srv/bot/news/digest_20251007.md" = "digest_20251007.md".
Proof. repeat split; reflexivity. Qed.

(** The temporary path is the target with ".tmp" added to its name. *)
Lemma tmp_path_of_ok (p tmp : Path) :
  tmp_path_of p = Ok tmp ->
  path_name p <> "" /\ tmp = path_with_name p (path_name p +:+ ".tmp").
Proof.
  unfold tmp_path_of, path_with_suffix, path_suffix.
  destruct (string_mem "/" _); [discriminate|].
  destruct (_ || _); [discriminate|].
  destruct (String.eqb (path_name p) "") eqn:En; [discriminate|].
  apply String.eqb_neq in En. intros [= <-]. split; [exact En|].
  f_equal.
  destruct (String.eqb (name_suffix (path_name p)) "") eqn:Es.
  - apply String.eqb_eq in Es. now rewrite Es.
  - rewrite <- append_assoc. now rewrite name_suffix_split.
Qed.

Lemma tmp_path_differs (p tmp : Path) : tmp_path_of p = Ok tmp -> tmp <> p.
Proof.
  intros H. apply tmp_path_of_ok in H. destruct H as [Hn ->].
  destruct p as [root parts]. unfold path_with_name, path_name in *. simpl in *.
  intros [= Heq].
  apply (f_equal (fun l => List.last l "")) in Heq.
  rewrite last_last in Heq.
  apply (f_equal String.length) in Heq.
  rewrite length_append in Heq. simpl in Heq. lia.
Qed.

Lemma with_fs_same (w : World) : with_fs w (w_fs w) = w.
Proof. now destruct w. Qed.

Lemma fs_effect_raise (op : FsOp) (f f' : FS) (e : ExcClass) :
  fs_effect op f = (Raise e, f') -> f' = f.
Proof.
  destruct op; simpl;
    repeat match goal with
           | |- context [if ?b then _ else _] => destruct b
           | |- context [match ?o with Some _ => _ | None => _ end] => destruct o
           end; congruence.
Qed.

Lemma fs_effect_no_exit (op : FsOp) (f f' : FS) (c : nat) :
  fs_effect op f <> (Exit c, f').
Proof.
  destruct op; simpl;
    repeat match goal with
           | |- context [if ?b then _ else _] => destruct b
           | |- context [match ?o with Some _ => _ | None => _ end] => destruct o
           end; congruence.
Qed.

Lemma fs_effect_frame (op : FsOp) (f f' : FS) (r : Res unit) (p : Path) :
  ~ touches op p -> fs_effect op f = (r, f') -> files f' !! p = files f !! p.
Proof.
  intros Ht. destruct op; simpl in *;
    repeat match goal with
           | |- context [if ?b then _ else _] => destruct b
           | |- context [match ?o with Some _ => _ | None => _ end] => destruct o
           end; intros [= <- <-]; simpl; try reflexivity.
  - rewrite lookup_insert_ne; [reflexivity | exact Ht].
  - rewrite lookup_insert_ne; [reflexivity | exact Ht].
  - rewrite lookup_insert_ne; [reflexivity | exact Ht].
  - rewrite lookup_insert_ne, lookup_delete_ne; tauto.
Qed.

Lemma fsop_inv (op : FsOp) (w w' : World) (r : Res unit) :
  fsop op w = (r, w') ->
  (exists e, fs_fault (w_env w) (w_fs w) op = Some e /\ r = Raise e /\ w' = w)
  \/ (exists f', fs_fault (w_env w) (w_fs w) op = None
                 /\ fs_effect op (w_fs w) = (r, f') /\ w' = with_fs w f').
Proof.
  unfold fsop. destruct (fs_fault _ _ _) as [e|].
  - intros [= <- <-]. left. eauto.
  - destruct (fs_effect op (w_fs w)) as [r0 f'] eqn:E.
    intros [= <- <-]. right. eauto.
Qed.

Lemma fsop_raise_same (op : FsOp) (w w' : World) (e : ExcClass) :
  fsop op w = (Raise e, w') -> w' = w.
Proof.
  intros H. apply fsop_inv in H. destruct H as [(e' & _ & _ & ->)|(f' & _ & E & ->)].
  - reflexivity.
  - apply fs_effect_raise in E. subst f'. apply with_fs_same.
Qed.

Lemma fsop_no_exit (op : FsOp) (w w' : World) (c : nat) :
  fsop op w <> (Exit c, w').
Proof.
  intros H. apply fsop_inv in H. destruct H as [(e' & _ & ? & _)|(f' & _ & E & _)].
  - discriminate.
  - now apply fs_effect_no_exit in E.
Qed.

Lemma fsop_keeps (op : FsOp) (p : Path) (v : option string) :
  ~ touches op p -> keeps (file_is p v) (fsop op).
Proof.
  intros Ht w Hw. destruct (fsop op w) as [r w'] eqn:E. simpl.
  apply fsop_inv in E. destruct E as [(e' & _ & _ & ->)|(f' & _ & E & ->)].
  - exact Hw.
  - unfold file_is in *. simpl. rewrite <- Hw. now apply (fs_effect_frame op _ _ r).
Qed.

Lemma run_ops_keeps (ops : list FsOp) (p : Path) (v : option string) :
  Forall (fun op => ~ touches op p) ops -> keeps (file_is p v) (run_ops ops).
Proof.
  induction 1 as [|op ops Hop Hops IH]; simpl.
  - apply keeps_ret.
  - apply keeps_bind; [now apply fsop_keeps | intros _; exact IH].
Qed.

Lemma run_ops_app_ok (a b : list FsOp) (w w' : World) :
  run_ops (a ++ b) w = (Ok tt, w') ->
  exists w1, run_ops a w = (Ok tt, w1) /\ run_ops b w1 = (Ok tt, w').
Proof.
  revert w. induction a as [|op a IH]; intros w H; simpl in *.
  - exists w. split; [reflexivity | exact H].
  - apply bind_inv in H.
    destruct H as [(x & w1 & Hop & Hrest)|[(e & _ & ?)|(c & _ & ?)]]; try discriminate.
    destruct (IH _ Hrest) as (w2 & Ha & Hb).
    exists w2. split; [|exact Hb].
    rewrite (bind_ok _ _ _ _ _ Hop). exact Ha.
Qed.

(** Writing characters one by one appends them to the open file. *)
Lemma run_ops_writes (tmp : Path) (cs : list ascii) (w w' : World) (acc : string) :
  files (w_fs w) !! tmp = Some acc ->
  run_ops (map (FsWrite tmp) cs) w = (Ok tt, w') ->
  files (w_fs w') !! tmp = Some (acc +:+ string_of_list_ascii cs).
Proof.
  revert w acc. induction cs as [|c cs IH]; intros w acc Hacc H; simpl in *.
  - injection H as <-. now rewrite append_nil_r.
  - apply bind_inv in H.
    destruct H as [(x & w1 & Hop & Hrest)|[(e & _ & ?)|(k & _ & ?)]]; try discriminate.
    apply fsop_inv in Hop.
    destruct Hop as [(e' & _ & ? & _)|(f' & _ & E & ->)]; [discriminate|].
    simpl in E. rewrite Hacc in E. injection E as E. subst f'.
    assert (Hacc' : files (w_fs (with_fs w (mkFS (<[tmp := acc +:+ String c ""]>
                                                   (files (w_fs w))) (dirs (w_fs w)))))
                      !! tmp = Some (acc +:+ String c ""))
      by (simpl; apply lookup_insert_eq).
    rewrite (IH _ _ Hacc' Hrest).
    now rewrite append_assoc.
Qed.

Lemma write_steps_prefix_safe (tmp p : Path) (content : string) (k : nat) :
  tmp <> p -> (k <= String.length content + 1)%nat ->
  Forall (fun op => ~ touches op p) (firstn k (write_steps tmp p content)).
Proof.
  intros Hne Hk. unfold write_steps.
  change (FsOpenW tmp :: map (FsWrite tmp) (list_ascii_of_string content)
            ++ [FsReplace tmp p])%list
    with ((FsOpenW tmp :: map (FsWrite tmp) (list_ascii_of_string content))
            ++ [FsReplace tmp p])%list.
  rewrite firstn_app.
  assert (Hlen : length (FsOpenW tmp :: map (FsWrite tmp) (list_ascii_of_string content))
                 = (String.length content + 1)%nat).
  { simpl. rewrite length_map.
    clear. induction content as [|c s IH]; simpl; [reflexivity | now rewrite IH]. }
  rewrite Hlen. replace (k - (String.length content + 1))%nat with 0%nat by lia.
  rewrite firstn_O, app_nil_r.
  apply Forall_take. constructor; [exact Hne|].
  apply List.Forall_forall. intros op Hin.
  apply in_map_iff in Hin. destruct Hin as (c & <- & _). exact Hne.
Qed.

Lemma keeps_bind_lift {A B} (P : World -> Prop) (r : Res A) (k : A -> M B) :
  (forall a, r = Ok a -> keeps P (k a)) -> keeps P (bind (lift r) k).
Proof.
  intros Hk w H. unfold bind, lift. destruct r as [a|e|c]; simpl.
  - now apply (Hk a).
  - exact H.
  - exact H.
Qed.

Lemma write_steps_length (tmp p : Path) (content : string) :
  length (write_steps tmp p content) = (String.length content + 2)%nat.
Proof.
  unfold write_steps. simpl. rewrite length_app, length_map. simpl.
  assert (H : length (list_ascii_of_string content) = String.length content)
    by (induction content as [|c s IH]; simpl; [reflexivity | now rewrite IH]).
  rewrite H. lia.
Qed.

(** A write cut before the rename leaves the target as it was. *)
Lemma write_upto_keeps (k : nat) (path content : string) (v : option string) :
  (k <= String.length content + 1)%nat ->
  keeps (file_is (Path_of path) v) (write_text_file_upto k path content).
Proof.
  intros Hk. unfold write_text_file_upto. cbn zeta.
  apply keeps_bind; [apply fsop_keeps; exact (fun x => x)|]. intros _.
  apply keeps_bind_lift. intros tmp Htmp.
  apply run_ops_keeps, write_steps_prefix_safe; [|exact Hk].
  now apply tmp_path_differs.
Qed.

Lemma run_ops_raise_keeps (pre : list FsOp) (last : FsOp) (p : Path)
    (v : option string) (w w' : World) (e : ExcClass) :
  Forall (fun op => ~ touches op p) pre ->
  file_is p v w ->
  run_ops (pre ++ [last]) w = (Raise e, w') ->
  file_is p v w'.
Proof.
  intros Hpre. revert w. induction Hpre as [|op pre Hop Hpre IH]; intros w Hw H.
  - simpl in H. apply bind_inv in H.
    destruct H as [(x & w1 & _ & Hret)|[(e' & Hop & _)|(c & _ & ?)]]; try discriminate.
    apply fsop_raise_same in Hop. now subst w'.
  - simpl in H. apply bind_inv in H.
    destruct H as [(x & w1 & Hop1 & Hrest)|[(e' & Hop1 & _)|(c & _ & ?)]];
      try discriminate.
    + apply (IH w1); [|exact Hrest].
      pose proof (fsop_keeps op p v Hop w Hw) as Hk. now rewrite Hop1 in Hk.
    + apply fsop_raise_same in Hop1. now subst w'.
Qed.

(** A write that raises leaves the target as it was. *)
Lemma write_raise_keeps (path content : string) (v : option string)
    (w w' : World) (e : ExcClass) :
  file_is (Path_of path) v w ->
  write_text_file path content w = (Raise e, w') ->
  file_is (Path_of path) v w'.
Proof.
  intros Hw H. unfold write_text_file in H. cbn zeta in H.
  apply bind_inv in H.
  destruct H as [(x & w1 & Hmk & H)|[(e' & Hmk & _)|(c & _ & ?)]]; try discriminate.
  - assert (Hw1 : file_is (Path_of path) v w1).
    { pose proof (fsop_keeps (FsMkdir (path_parent (Path_of path)) true)
                    (Path_of path) v (fun x => x) w Hw) as Hk.
      unfold ensure_dir in Hmk. now rewrite Hmk in Hk. }
    apply bind_inv in H.
    destruct H as [(tmp & w2 & Hl & H)|[(e' & Hl & _)|(c & _ & ?)]]; try discriminate.
    + unfold lift in Hl. injection Hl as Htmp <-.
      unfold write_steps in H.
      change (FsOpenW tmp :: map (FsWrite tmp) (list_ascii_of_string content)
                ++ [FsReplace tmp (Path_of path)])%list
        with ((FsOpenW tmp :: map (FsWrite tmp) (list_ascii_of_string content))
                ++ [FsReplace tmp (Path_of path)])%list in H.
      refine (run_ops_raise_keeps _ _ _ _ _ _ _ _ Hw1 H).
      apply tmp_path_differs in Htmp.
      constructor; [exact Htmp|].
      apply List.Forall_forall. intros op Hin.
      apply in_map_iff in Hin. destruct Hin as (c & <- & _). exact Htmp.
    + unfold lift in Hl. injection Hl as _ <-. exact Hw1.
  - unfold ensure_dir in Hmk. apply fsop_raise_same in Hmk. now subst w'.
Qed.

Lemma write_body_length (tmp : Path) (content : string) :
  length (FsOpenW tmp :: map (FsWrite tmp) (list_ascii_of_string content))
  = (String.length content + 1)%nat.
Proof.
  pose proof (write_steps_length tmp tmp content) as Hl.
  unfold write_steps in Hl. simpl in Hl. rewrite length_app in Hl.
  simpl in *. lia.
Qed.

(** Once the temporary file is opened and written, it holds the content. *)
Lemma write_body_ok (tmp : Path) (content : string) (w w' : World) :
  run_ops (FsOpenW tmp :: map (FsWrite tmp) (list_ascii_of_string content)) w
    = (Ok tt, w') ->
  files (w_fs w') !! tmp = Some content.
Proof.
  intros H. simpl in H. apply bind_inv in H.
  destruct H as [(x & w1 & Hop & Hrest)|[(e & _ & ?)|(k & _ & ?)]]; try discriminate.
  apply fsop_inv in Hop.
  destruct Hop as [(e' & _ & ? & _)|(f' & _ & E & ->)]; [discriminate|].
  simpl in E. destruct (is_dir (w_fs w) tmp || _); [discriminate|].
  injection E as E. subst f'.
  assert (Hfile : files (w_fs (with_fs w (mkFS (<[tmp := ""]> (files (w_fs w)))
                                               (dirs (w_fs w))))) !! tmp = Some "")
    by (simpl; apply lookup_insert_eq).
  pose proof (run_ops_writes tmp _ _ w' "" Hfile Hrest) as Hw.
  now rewrite string_of_list_ascii_of_string in Hw.
Qed.

Lemma write_steps_take_body (tmp p : Path) (content : string) :
  firstn (String.length content + 1) (write_steps tmp p content)
  = FsOpenW tmp :: map (FsWrite tmp) (list_ascii_of_string content).
Proof.
  unfold write_steps.
  change (FsOpenW tmp :: map (FsWrite tmp) (list_ascii_of_string content)
            ++ [FsReplace tmp p])%list
    with ((FsOpenW tmp :: map (FsWrite tmp) (list_ascii_of_string content))
            ++ [FsReplace tmp p])%list.
  rewrite firstn_app, <- (write_body_length tmp content).
  now rewrite firstn_all, Nat.sub_diag, firstn_O, app_nil_r.
Qed.

(** A write that returns has put the content under the target name and
    left no temporary file. *)
Lemma write_ok (path content : string) (w w' : World) :
  write_text_file path content w = (Ok tt, w') ->
  exists tmp, tmp_path_of (Path_of path) = Ok tmp
              /\ files (w_fs w') !! Path_of path = Some content
              /\ files (w_fs w') !! tmp = None.
Proof.
  intros H. unfold write_text_file in H. cbn zeta in H.
  apply bind_inv in H.
  destruct H as [(x & w1 & _ & H)|[(e' & _ & ?)|(c & _ & ?)]]; try discriminate.
  apply bind_inv in H.
  destruct H as [(tmp & w2 & Hl & H)|[(e' & _ & ?)|(c & _ & ?)]]; try discriminate.
  unfold lift in Hl. injection Hl as Htmp <-.
  exists tmp. split; [exact Htmp|].
  unfold write_steps in H.
  change (FsOpenW tmp :: map (FsWrite tmp) (list_ascii_of_string content)
            ++ [FsReplace tmp (Path_of path)])%list
    with ((FsOpenW tmp :: map (FsWrite tmp) (list_ascii_of_string content))
            ++ [FsReplace tmp (Path_of path)])%list in H.
  apply run_ops_app_ok in H. destruct H as (w3 & Hbody & Hren).
  apply write_body_ok in Hbody.
  simpl in Hren. apply bind_inv in Hren.
  destruct Hren as [(y & w4 & Hop & Hret)|[(e' & _ & ?)|(c & _ & ?)]]; try discriminate.
  injection Hret as <-.
  apply fsop_inv in Hop.
  destruct Hop as [(e' & _ & ? & _)|(f' & _ & E & ->)]; [discriminate|].
  simpl in E. rewrite Hbody in E.
  destruct (is_dir (w_fs w3) (Path_of path)); [discriminate|].
  injection E as E. subst f'. simpl. split.
  - apply lookup_insert_eq.
  - rewrite lookup_insert_ne by (intros Heq; symmetry in Heq;
                                 now apply (tmp_path_differs _ _ Htmp)).
    apply lookup_delete_eq.
Qed.

Lemma run_ops_no_exit (l : list FsOp) (w w' : World) (c : nat) :
  run_ops l w <> (Exit c, w').
Proof.
  revert w. induction l as [|op l IH]; intros w H; simpl in H; [discriminate|].
  apply bind_inv in H.
  destruct H as [(y & w3 & _ & H)|[(e' & _ & ?)|(c' & Hop & _)]]; try discriminate.
  - now apply (IH w3).
  - now apply fsop_no_exit in Hop.
Qed.

(** [write_text_file] returns or raises; it never leaves the interpreter. *)
Lemma write_no_exit (path content : string) (w w' : World) (c : nat) :
  write_text_file path content w <> (Exit c, w').
Proof.
  intros H. unfold write_text_file in H. cbn zeta in H.
  apply bind_inv in H.
  destruct H as [(x & w1 & _ & H)|[(e' & _ & ?)|(c' & Hop & _)]]; try discriminate.
  - apply bind_inv in H.
    destruct H as [(tmp & w2 & _ & H)|[(e' & _ & ?)|(c' & Hl & _)]]; try discriminate.
    + now apply run_ops_no_exit in H.
    + unfold lift in Hl. injection Hl as Hl _.
      unfold tmp_path_of, path_with_suffix in Hl.
      repeat match type of Hl with
             | context [if ?b then _ else _] => destruct b
             end; discriminate.
  - now apply fsop_no_exit in Hop.
Qed.

(** C5. [write_text_file] writes through a temporary file: a run cut at
    any point before the rename, and a run that raises, leave the target
    path as it was before the call (absent, or with its complete prior
    content); the rename is the last step and starts when the temporary
    file holds the whole content; a run that returns leaves the whole
    content under the target path. *)
Theorem write_text_file_atomic (path content : string) (w : World) :
  let p := Path_of path in
  let before := files (w_fs w) !! p in
  (forall k, (k <= String.length content + 1)%nat ->
     files (w_fs (snd (write_text_file_upto k path content w))) !! p = before)
  /\ (forall e w', write_text_file path content w = (Raise e, w') ->
        files (w_fs w') !! p = before)
  /\ (forall c w', write_text_file path content w <> (Exit c, w'))
  /\ (forall w', write_text_file path content w = (Ok tt, w') ->
        files (w_fs w') !! p = Some content)
  /\ (forall tmp, tmp_path_of p = Ok tmp ->
        tmp <> p
        /\ List.last (write_steps tmp p content) (FsMkdir p true) = FsReplace tmp p
        /\ forall w', write_text_file_upto (String.length content + 1) path content w
                        = (Ok tt, w') ->
                      files (w_fs w') !! tmp = Some content)
  /\ write_text_file_upto (String.length content + 2) path content w
     = write_text_file path content w.
Proof.
  cbn zeta. split; [|split; [|split; [|split; [|split]]]].
  - intros k Hk.
    now apply (write_upto_keeps k path content
                 (files (w_fs w) !! Path_of path) Hk w).
  - intros e w' H.
    now apply (write_raise_keeps path content
                 (files (w_fs w) !! Path_of path) w w' e).
  - intros c w'. apply write_no_exit.
  - intros w' H. apply write_ok in H. now destruct H as (tmp & _ & H & _).
  - intros tmp Htmp. split; [now apply tmp_path_differs|]. split.
    + unfold write_steps.
      change (FsOpenW tmp :: map (FsWrite tmp) (list_ascii_of_string content)
                ++ [FsReplace tmp (Path_of path)])%list
        with ((FsOpenW tmp :: map (FsWrite tmp) (list_ascii_of_string content))
                ++ [FsReplace tmp (Path_of path)])%list.
      apply last_last.
    + intros w' H. unfold write_text_file_upto in H. cbn zeta in H.
      apply bind_inv in H.
      destruct H as [(x & w1 & _ & H)|[(e' & _ & ?)|(c & _ & ?)]]; try discriminate.
      rewrite Htmp in H. unfold bind, lift in H.
      rewrite write_steps_take_body in H. now apply write_body_ok in H.
  - unfold write_text_file_upto, write_text_file. cbn zeta.
    unfold bind.
    destruct (ensure_dir (path_parent (Path_of path)) w) as [[x|e|c] w1];
      try reflexivity.
    unfold lift. destruct (tmp_path_of (Path_of path)) as [tmp|e|c]; try reflexivity.
    now rewrite <- (write_steps_length tmp (Path_of path) content), firstn_all.
Qed.

(** A rewrite of an existing digest, cut after the temporary file was
    opened and two characters were written, and run to its end. *)
Example write_text_file_rerun :
  let cut := snd (write_text_file_upto 3 "/srv/bot/news/digest.md" "new text"
                                       rerun_world) in
  let done := snd (write_text_file "/srv/bot/news/digest.md" "new text" rerun_world) in
  files (w_fs cut) !! digest_path = Some "old text"
  /\ files (w_fs cut) !! ("/", ["srv"; "bot"; "news"; "digest.md.tmp"]) = Some "ne"
  /\ files (w_fs done) !! digest_path = Some "new text"
  /\ files (w_fs done) !! ("/", ["srv"; "bot"; "news"; "digest.md.tmp"]) = None.
Proof. repeat split; vm_compute; reflexivity. Qed.

(* ===================================================================== *)
(** ** git_operations.py: the calls on the repository                     *)
(* ===================================================================== *)

Lemma git_inv (op : GitOp) (w w' : World) (r : Res unit) :
  git op w = (r, w') ->
  (exists e, git_fault (w_env w) (record_op op (w_repo w)) op = Some e
             /\ r = Raise e /\ w' = with_repo w (record_op op (w_repo w)))
  \/ (exists r', git_fault (w_env w) (record_op op (w_repo w)) op = None
                 /\ git_effect op (fetched_by (w_env w) op) (record_op op (w_repo w))
                    = (r, r')
                 /\ w' = with_repo w r').
Proof.
  unfold git. destruct (git_fault _ _ _) as [e|].
  - intros [= <- <-]. left. eauto.
  - destruct (git_effect _ _ _) as [r0 r'] eqn:E. intros [= <- <-]. right. eauto.
Qed.

Lemma has_name_assoc {V} (k : string) (l : list (string * V)) :
  has_name k l = true <-> exists v, assoc k l = Some v.
Proof.
  induction l as [|[k' v] l IH]; simpl.
  - split; [discriminate | intros [v H]; discriminate].
  - destruct (String.eqb k' k); simpl; [|exact IH].
    split; [eauto | reflexivity].
Qed.

Lemma has_name_false_assoc {V} (k : string) (l : list (string * V)) :
  has_name k l = false -> assoc k l = None.
Proof.
  intros H. destruct (assoc k l) as [v|] eqn:E; [|reflexivity].
  assert (Ht : has_name k l = true) by (apply has_name_assoc; eauto).
  congruence.
Qed.

Lemma has_name_In {V} (k : string) (l : list (string * V)) :
  has_name k l = true <-> In k (map fst l).
Proof.
  induction l as [|[k' v] l IH]; simpl.
  - split; [discriminate | tauto].
  - destruct (String.eqb k' k) eqn:E; simpl.
    + apply String.eqb_eq in E. tauto.
    + apply String.eqb_neq in E. rewrite IH. tauto.
Qed.

Lemma branch_count_present (X : string) (r : Repo) :
  heads_distinct r -> has_name X (heads r) = true -> branch_count X r = 1%nat.
Proof.
  unfold heads_distinct, branch_count. intros Hd Hin.
  apply has_name_In in Hin.
  rewrite (NoDup_count_occ string_dec) in Hd. specialize (Hd X).
  apply (count_occ_In string_dec) in Hin. lia.
Qed.

(** What a checkout leaves behind, whether it succeeds or not. *)
Lemma git_checkout_spec (X : string) (w w' : World) (r : Res unit) :
  git (OpCheckout X) w = (r, w') ->
  heads (w_repo w') = heads (w_repo w)
  /\ trace (w_repo w') = OpCheckout X :: trace (w_repo w)
  /\ (r = Ok tt -> active (w_repo w') = Some X
                   /\ assoc X (heads (w_repo w)) = Some (head_commit (w_repo w')))
  /\ (r <> Ok tt -> active (w_repo w') = active (w_repo w))
  /\ (git_fault (w_env w) (record_op (OpCheckout X) (w_repo w)) (OpCheckout X) = None ->
      has_name X (heads (w_repo w)) = true -> r = Ok tt)
  /\ w_env w' = w_env w.
Proof.
  intros H. apply git_inv in H.
  destruct H as [(e & Hf & -> & ->)|(r' & Hf & E & ->)]; simpl.
  - repeat split; try reflexivity; try discriminate. congruence.
  - simpl in E. destruct (assoc X (heads (w_repo w))) as [c|] eqn:Ea.
    + injection E as <- <-. simpl. repeat split; try reflexivity. congruence.
    + injection E as <- <-. simpl. repeat split; try reflexivity; try discriminate.
      intros _ Hn. apply has_name_assoc in Hn. destruct Hn as [v Hv]. congruence.
Qed.

(** What creating a branch leaves behind when it returns. *)
Lemma git_create_head_ok (X : string) (w w' : World) :
  git (OpCreateHead X) w = (Ok tt, w') ->
  has_name X (heads (w_repo w)) = false ->
  heads (w_repo w') = (heads (w_repo w) ++ [(X, head_commit (w_repo w))])%list
  /\ trace (w_repo w') = OpCreateHead X :: trace (w_repo w)
  /\ active (w_repo w') = active (w_repo w)
  /\ head_commit (w_repo w') = head_commit (w_repo w)
  /\ w_env w' = w_env w.
Proof.
  intros H Hn. apply git_inv in H.
  destruct H as [(e & _ & ? & _)|(r' & Hf & E & ->)]; [discriminate|].
  simpl in E. rewrite (has_name_false_assoc _ _ Hn) in E.
  injection E as <-. simpl. repeat split; reflexivity.
Qed.

Lemma log_spec (l : Level) (f : string) (a : list string) (w : World) :
  log l f a w = (Ok tt, with_log w (mkLog l f a :: w_log w)).
Proof. reflexivity. Qed.

Lemma heads_distinct_snoc (X : string) (c : nat) (l : list (string * nat)) :
  List.NoDup (map fst l) -> has_name X l = false ->
  List.NoDup (map fst (l ++ [(X, c)])).
Proof.
  intros Hd Hn. rewrite map_app. simpl.
  apply NoDup_app_remove_l with (l := []). simpl.
  apply (Permutation.Permutation_NoDup (l := X :: map fst l)).
  - apply Permutation.Permutation_cons_append.
  - constructor; [|exact Hd].
    intros Hin. apply has_name_In in Hin. congruence.
Qed.

(** The call on a branch that exists: one checkout, nothing created. *)
Lemma checkout_existing_spec (X : string) (w w' : World) (r : Res unit) :
  has_name X (heads (w_repo w)) = true ->
  _checkout_or_create_branch (Some X) w = (r, w') ->
  heads (w_repo w') = heads (w_repo w)
  /\ trace (w_repo w') = OpCheckout X :: trace (w_repo w)
  /\ (r = Ok tt -> active (w_repo w') = Some X)
  /\ (r <> Ok tt -> active (w_repo w') = active (w_repo w))
  /\ (git_fault (w_env w) (record_op (OpCheckout X) (w_repo w)) (OpCheckout X) = None ->
      r = Ok tt).
Proof.
  intros Hn H. unfold _checkout_or_create_branch, bind, get_repo in H.
  cbn [in_heads py_str] in H. rewrite Hn in H.
  destruct (git (OpCheckout X) w) as [[[]|e|c] w1] eqn:E;
    apply git_checkout_spec in E;
    destruct E as (Hh & Ht & Hok & Hko & Hnf & _).
  - rewrite log_spec in H. injection H as <- <-. simpl.
    destruct (Hok eq_refl) as [Ha _]. repeat split; auto; congruence.
  - injection H as <- <-. repeat split; auto; discriminate.
  - injection H as <- <-. repeat split; auto; discriminate.
Qed.

(** The call on a branch that is missing, when it returns: the branch is
    created from HEAD, once, and checked out. *)
Lemma create_missing_spec (X : string) (w w' : World) :
  has_name X (heads (w_repo w)) = false ->
  _checkout_or_create_branch (Some X) w = (Ok tt, w') ->
  heads (w_repo w') = (heads (w_repo w) ++ [(X, head_commit (w_repo w))])%list
  /\ trace (w_repo w') = OpCheckout X :: OpCreateHead X :: trace (w_repo w)
  /\ active (w_repo w') = Some X
  /\ w_env w' = w_env w.
Proof.
  intros Hn H. unfold _checkout_or_create_branch, bind, get_repo in H.
  cbn [in_heads py_str] in H. rewrite Hn in H.
  destruct (git (OpCreateHead X) w) as [[[]|e|c] w1] eqn:E1; try discriminate.
  apply git_create_head_ok in E1; [|exact Hn].
  destruct E1 as (Hh1 & Ht1 & _ & _ & He1).
  destruct (git (OpCheckout X) w1) as [[[]|e|c] w2] eqn:E2; try discriminate.
  apply git_checkout_spec in E2. destruct E2 as (Hh2 & Ht2 & Hok & _ & _ & He2).
  rewrite log_spec in H. injection H as <-. simpl.
  destruct (Hok eq_refl) as [Ha _].
  repeat split; congruence.
Qed.

(** C6. After a call of [_checkout_or_create_branch] on [X] that returns,
    there is exactly one local branch named [X] and it is checked out; a
    second call in a row makes one git call, the checkout of [X], creates
    nothing, and leaves exactly one branch [X], checked out.  (Repository
    states are those in which no two branches share a name.) *)
Theorem checkout_or_create_twice (X : string) (w w1 : World) :
  heads_distinct (w_repo w) ->
  _checkout_or_create_branch (Some X) w = (Ok tt, w1) ->
  let second := _checkout_or_create_branch (Some X) w1 in
  let w2 := snd (second) in
  branch_count X (w_repo w1) = 1%nat
  /\ active (w_repo w1) = Some X
  /\ trace (w_repo w2) = OpCheckout X :: trace (w_repo w1)
  /\ heads (w_repo w2) = heads (w_repo w1)
  /\ branch_count X (w_repo w2) = 1%nat
  /\ active (w_repo w2) = Some X
  /\ heads_distinct (w_repo w2)
  /\ (git_fault (w_env w1) (record_op (OpCheckout X) (w_repo w1)) (OpCheckout X) = None ->
      fst second = Ok tt).
Proof.
  intros Hd H1. cbn zeta.
  assert (Hfirst : has_name X (heads (w_repo w1)) = true
                   /\ heads_distinct (w_repo w1)
                   /\ active (w_repo w1) = Some X).
  { destruct (has_name X (heads (w_repo w))) eqn:Hn.
    - destruct (checkout_existing_spec X w w1 _ Hn H1) as (Hh & _ & Ha & _).
      unfold heads_distinct. rewrite Hh. auto.
    - destruct (create_missing_spec X w w1 Hn H1) as (Hh & _ & Ha & _).
      unfold heads_distinct. rewrite Hh. repeat split; [| |exact Ha].
      + apply has_name_In. rewrite map_app. apply in_or_app. right. now left.
      + now apply heads_distinct_snoc. }
  destruct Hfirst as (Hn1 & Hd1 & Ha1).
  destruct (_checkout_or_create_branch (Some X) w1) as [r2 w2] eqn:H2.
  destruct (checkout_existing_spec X w1 w2 r2 Hn1 H2) as (Hh & Ht & Hok & Hko & Hnf).
  assert (Ha2 : active (w_repo w2) = Some X).
  { destruct r2 as [[]|e|c]; [now apply Hok | |]; rewrite Hko; auto; discriminate. }
  cbn [fst snd]. unfold branch_count, heads_distinct in *. rewrite Hh.
  repeat split; auto; now apply branch_count_present.
Qed.

Lemma checkout_or_create_twice_sample :
  let X := "feature/news-20251007" in
  let w1 := snd (_checkout_or_create_branch (Some X) sample_world) in
  let w2 := snd (_checkout_or_create_branch (Some X) w1) in
  heads (w_repo w2) = [("main", 1%nat); (X, 1%nat)]
  /\ branch_count X (w_repo w2) = 1%nat
  /\ active (w_repo w2) = Some X.
Proof.
  cbn zeta.
  assert (Hd : heads_distinct (w_repo sample_world)).
  { unfold heads_distinct. simpl. constructor; [intros []|constructor]. }
  pose proof (checkout_or_create_twice "feature/news-20251007" sample_world
                (snd (_checkout_or_create_branch (Some "feature/news-20251007")
                                                 sample_world))
                Hd eq_refl) as H.
  cbn zeta in H. destruct H as (_ & _ & _ & _ & Hc & Ha & _).
  split; [reflexivity|]. split; [exact Hc | exact Ha].
Defined.

Lemma git_nofault (op : GitOp) (w : World) :
  git_fault (w_env w) (record_op op (w_repo w)) op = None ->
  git op w
  = (fst (git_effect op (fetched_by (w_env w) op) (record_op op (w_repo w))),
     with_repo w (snd (git_effect op (fetched_by (w_env w) op)
                                  (record_op op (w_repo w))))).
Proof.
  intros H. unfold git. rewrite H. now destruct (git_effect _ _ _).
Qed.

(** C7. The local mainline is resolved in three ways, in this order: a
    local "main" is checked out; failing that, when "<upstream>/main" is
    among the refs of the repository, a local "main" is created from it and
    checked out; failing that, "main" is created from the current HEAD and
    checked out, and a warning is logged.  (The environment lets the git
    calls through.) *)
Theorem mainline_resolution (cfg : Config) (w : World) :
  (forall r op, git_fault (w_env w) r op = None) ->
  let r := w_repo w in
  let up_main := py_str (remote_upstream cfg) +:+ "/main" in
  let res := fst (resolve_mainline cfg w) in
  let w' := snd (resolve_mainline cfg w) in
  let r' := w_repo w' in
  res = Ok tt
  /\ active r' = Some "main"
  /\ if in_heads (Some "main") r then
       trace r' = OpCheckout "main" :: trace r
       /\ heads r' = heads r
       /\ assoc "main" (heads r) = Some (head_commit r')
       /\ w_log w' = w_log w
     else if in_refs up_main r then
       trace r' = OpCheckoutB "main" up_main :: trace r
       /\ heads r' = (heads r ++ [("main", head_commit r')])%list
       /\ assoc up_main (refs r) = Some (head_commit r')
       /\ w_log w' = w_log w
     else
       trace r' = OpCheckout "main" :: OpCreateHead "main" :: trace r
       /\ heads r' = (heads r ++ [("main", head_commit r)])%list
       /\ head_commit r' = head_commit r
       /\ w_log w'
          = mkLog WARNING "Created 'main' from current HEAD; upstream 'main' not found." []
              :: w_log w.
Proof.
  intros Hnf. cbn zeta.
  unfold resolve_mainline, bind, get_repo, main_branch.
  cbn [in_heads]. unfold in_refs.
  destruct (has_name "main" (heads (w_repo w))) eqn:Hm.
  - rewrite git_nofault by apply Hnf. cbn [git_effect record_op heads].
    apply has_name_assoc in Hm. destruct Hm as [c Hc]. rewrite Hc.
    cbn. repeat split.
  - destruct (has_name _ (refs (w_repo w))) eqn:Hr.
    + rewrite git_nofault by apply Hnf. cbn [git_effect record_op heads refs].
      rewrite Hm. apply has_name_assoc in Hr. destruct Hr as [c Hc]. rewrite Hc.
      cbn. repeat split. exact Hc.
    + rewrite git_nofault by apply Hnf. cbn [git_effect record_op heads refs].
      rewrite (has_name_false_assoc _ _ Hm). cbn [fst snd].
      rewrite git_nofault by apply Hnf.
      cbn [git_effect record_op heads refs with_repo w_repo set_heads].
      assert (Ha : assoc "main" (heads (w_repo w) ++ [("main", head_commit (w_repo w))])
                   = Some (head_commit (w_repo w))).
      { clear -Hm. induction (heads (w_repo w)) as [|[k v] l IH]; [reflexivity|].
        simpl in *. destruct (String.eqb k "main"); [discriminate | now apply IH]. }
      change (head_commit (record_op (OpCreateHead "main") (w_repo w)))
        with (head_commit (w_repo w)).
      rewrite Ha. cbn. repeat split.
Qed.

Lemma mainline_resolution_sample :
  let w' := snd (resolve_mainline sample_config fresh_fork_world) in
  active (w_repo w') = Some "main"
  /\ heads (w_repo w') = [("master", 1%nat); ("main", 5%nat)]
  /\ w_log w' = [].
Proof.
  cbn zeta.
  pose proof (mainline_resolution sample_config fresh_fork_world (fun _ _ => eq_refl))
    as H.
  cbn zeta in H. destruct H as (_ & Ha & _).
  split; [exact Ha|]. split; reflexivity.
Defined.

Lemma git_effect_no_exit (op : GitOp) (fetched : list (string * nat)) (r r' : Repo)
    (c : nat) :
  git_effect op fetched r <> (Exit c, r').
Proof.
  destruct op; simpl;
    repeat match goal with
           | |- context [if ?b then _ else _] => destruct b
           | |- context [match ?o with Some _ => _ | None => _ end] => destruct o
           end; congruence.
Qed.

Lemma git_no_exit (op : GitOp) (w w' : World) (c : nat) : git op w <> (Exit c, w').
Proof.
  intros H. apply git_inv in H. destruct H as [(e & _ & ? & _)|(r' & _ & E & _)].
  - discriminate.
  - now apply git_effect_no_exit in E.
Qed.





Lemma checkout_or_create_no_exit (name : option string) (w w' : World) (c : nat) :
  _checkout_or_create_branch name w <> (Exit c, w').
Proof.
  unfold _checkout_or_create_branch, bind, get_repo.
  destruct (in_heads name (w_repo w)).
  - destruct (git _ w) as [[[]|e|k] w1] eqn:E; try discriminate.
    now apply git_no_exit in E.
  - destruct (git _ w) as [[[]|e|k] w1] eqn:E; try discriminate.
    + destruct (git _ w1) as [[[]|e|k] w2] eqn:E2; try discriminate.
      now apply git_no_exit in E2.
    + now apply git_no_exit in E.
Qed.


Lemma os_path_join_some (a b : string) : exists d, os_path_join (Some a) (Some b) = Ok d.
Proof.
  unfold os_path_join.
  destruct (startswith "/" b); [eauto|]. destruct (_ || _); eauto.
Qed.





(* ===================================================================== *)
(** ** The controllers and the run                                        *)
(* ===================================================================== *)

(** C1 fails on the code. A deployment whose upstream owner and repository
    name are not set has no upstream URL; when the remote is missing too,
    [sync_with_upstream] hands [None] to [create_remote], the TypeError this
    raises is not a GitCommandError, and it leaves [sync_with_upstream]
    without any warning logged: the run ends with exit status 1.  The same
    deployment with owner and name set runs to its end. *)
Theorem sync_raises_without_upstream_url :
  let cfg := Config_init (w_env unconfigured_world) in
  repo_url_alt cfg = None
  /\ fst (_get_remote (remote_upstream cfg) unconfigured_world) = Ok None
  /\ fst (sync_with_upstream cfg unconfigured_world) = Raise TypeError
  /\ w_log (snd (sync_with_upstream cfg unconfigured_world)) = []
  /\ fst (main unconfigured_world) = Exit 1
  /\ exit_code (fst (main unconfigured_world)) = 1%nat
  /\ fst (main configured_world) = Ok tt.
Proof. vm_compute. repeat split. Qed.

(** X1. What [sync_with_upstream] does catch: it never lets a
    GitCommandError out, whatever the configuration and the state of the
    repository. *)
Lemma sync_swallows_git_errors (cfg : Config) (w : World) :
  fst (sync_with_upstream cfg w) <> Raise GitCommandError.
Proof.
  unfold sync_with_upstream, try_except.
  destruct (sync_body cfg w) as [[[]|e|c] w1]; cbn [fst]; try discriminate.
  destruct e; cbn [is_GitCommandError fst]; try discriminate.
Qed.

Section GitErrorsOnly.

(** An environment whose every failure on the repository is a
    GitCommandError. *)
Variable E : Env.
Hypothesis Hfaults : forall r o e, git_fault E r o = Some e -> e = GitCommandError.

Lemma git_errors_only_bind {A B} (m : M A) (k : A -> M B) :
  git_errors_only E m -> (forall a, git_errors_only E (k a)) ->
  git_errors_only E (bind m k).
Proof.
  intros Hm Hk w Hw. unfold bind. specialize (Hm w Hw).
  destruct (m w) as [[a|e|c] w1]; cbn [fst snd] in *.
  - apply Hk. tauto.
  - exact Hm.
  - tauto.
Qed.

Lemma git_errors_only_ret {A} (a : A) : git_errors_only E (ret a).
Proof. intros w Hw. split; [exact Hw | exact I]. Qed.

Lemma git_errors_only_log l f a : git_errors_only E (log l f a).
Proof. intros w Hw. split; [exact Hw | exact I]. Qed.

(** A call on the repository ends with GitCommandError whenever the
    environment fails it or git refuses it; creating a branch is the one
    call that is refused otherwise, on a name already taken. *)
Lemma git_errors_only_git (op : GitOp) :
  (forall n, op <> OpCreateHead n) -> git_errors_only E (git op).
Proof.
  intros Hop w Hw. destruct (git op w) as [r w'] eqn:E1. cbn [fst snd].
  apply git_inv in E1. rewrite Hw in E1.
  destruct E1 as [(e & Hfe & -> & ->)|(r' & _ & Eff & ->)].
  - split; [exact Hw | now apply Hfaults in Hfe].
  - split; [exact Hw|].
    destruct r as [[]|e|c]; [exact I | | now apply git_effect_no_exit in Eff].
    destruct op; simpl in Eff;
      repeat match type of Eff with
             | context [if ?b then _ else _] => destruct b
             | context [match ?o with Some _ => _ | None => _ end] => destruct o
             end; congruence.
Qed.

Lemma git_errors_only_create_head (n : string) (w : World) :
  w_env w = E ->
  has_name n (heads (w_repo w)) = false ->
  w_env (snd (git (OpCreateHead n) w)) = E
  /\ match fst (git (OpCreateHead n) w) with
     | Ok _ => True
     | Raise e => e = GitCommandError
     | Exit _ => False
     end.
Proof.
  intros Hw Hn. destruct (git (OpCreateHead n) w) as [r w'] eqn:E1. cbn [fst snd].
  apply git_inv in E1. rewrite Hw in E1.
  destruct E1 as [(e & Hfe & -> & ->)|(r' & _ & Eff & ->)].
  - split; [exact Hw | now apply Hfaults in Hfe].
  - split; [exact Hw|]. simpl in Eff.
    rewrite (has_name_false_assoc _ _ Hn) in Eff. now injection Eff as <- _.
Qed.

Lemma git_errors_only_resolve_mainline (cfg : Config) :
  git_errors_only E (resolve_mainline cfg).
Proof.
  intros w Hw.
  assert (Heq : resolve_mainline cfg w
                = (if in_heads (Some main_branch) (w_repo w) then
                     git (OpCheckout main_branch)
                   else if in_refs (py_str (remote_upstream cfg) +:+ "/" +:+ main_branch)
                                   (w_repo w) then
                     git (OpCheckoutB main_branch
                            (py_str (remote_upstream cfg) +:+ "/" +:+ main_branch))
                   else
                     git (OpCreateHead main_branch) ;;
                     git (OpCheckout main_branch) ;;
                     log WARNING
                         "Created 'main' from current HEAD; upstream 'main' not found."
                         []) w) by reflexivity.
  rewrite Heq. clear Heq. cbn [in_heads].
  destruct (has_name main_branch (heads (w_repo w))) eqn:Hm.
  - apply git_errors_only_git; [discriminate | exact Hw].
  - destruct (in_refs _ (w_repo w)).
    + apply git_errors_only_git; [discriminate | exact Hw].
    + pose proof (git_errors_only_create_head main_branch w Hw Hm) as [He Hr].
      unfold bind at 1 3.
      destruct (git (OpCreateHead main_branch) w) as [[[]|e|c] w1];
        cbn [fst snd] in *; [|tauto|tauto].
      apply (git_errors_only_bind (git (OpCheckout main_branch))
               (fun _ => log WARNING _ [])); [| |exact He].
      * apply git_errors_only_git. discriminate.
      * intros _. apply git_errors_only_log.
Qed.

(** The steps of [sync_with_upstream] once the remote is known. *)
Lemma git_errors_only_sync_rest (cfg : Config) (u : string) :
  git_errors_only E
    (git (OpFetch u) ;; resolve_mainline cfg ;;
     git (OpPull (remote_upstream cfg) main_branch) ;;
     log INFO "Synchronized fork with upstream/%s." [main_branch]).
Proof.
  apply git_errors_only_bind; [apply git_errors_only_git; discriminate|].
  intros _.
  apply git_errors_only_bind; [apply git_errors_only_resolve_mainline|].
  intros _.
  apply git_errors_only_bind; [apply git_errors_only_git; discriminate|].
  intros _. apply git_errors_only_log.
Qed.

(** The creation of the remote from a URL, with its line in the log. *)
Lemma git_errors_only_create_remote (cfg : Config) (url : string) :
  git_errors_only E
    (u <- create_remote (remote_upstream cfg) (Some url) ;;
     log INFO "Added upstream remote %s -> %s"
         [py_str (remote_upstream cfg); py_str (Some url)] ;;
     ret u).
Proof.
  apply git_errors_only_bind.
  - unfold create_remote. apply git_errors_only_bind;
      [apply git_errors_only_git; discriminate|].
    intros _. apply git_errors_only_ret.
  - intros u. apply git_errors_only_bind; [apply git_errors_only_log|].
    intros _. apply git_errors_only_ret.
Qed.

End GitErrorsOnly.

(** X2. The synchronisation is best-effort as far as git goes: when the
    failures of the environment are GitCommandErrors and the upstream
    remote exists or has a URL to be created from, [sync_with_upstream]
    returns normally, whichever of its calls fail. *)
Lemma sync_returns_on_git_errors (cfg : Config) (w : World) :
  (forall r o e, git_fault (w_env w) r o = Some e -> e = GitCommandError) ->
  repo_url_alt cfg <> None \/ fst (_get_remote (remote_upstream cfg) w) <> Ok None ->
  fst (sync_with_upstream cfg w) = Ok tt.
Proof.
  intros Hf Hurl.
  assert (Hbody : match fst (sync_body cfg w) with
                  | Ok _ => True | Raise e => e = GitCommandError | Exit _ => False
                  end).
  { unfold sync_body. unfold bind at 1.
    unfold _get_remote at 1. unfold bind at 1, get_repo, ret. cbn beta iota zeta.
    assert (Hfound : fst (_get_remote (remote_upstream cfg) w)
                     = Ok match remote_upstream cfg with
                          | Some n => option_map fst
                                        (List.find (fun kv => String.eqb (fst kv) n)
                                                   (remotes (w_repo w)))
                          | None => None
                          end) by reflexivity.
    destruct (match remote_upstream cfg with
              | Some n => option_map fst
                            (List.find (fun kv => String.eqb (fst kv) n)
                                       (remotes (w_repo w)))
              | None => None
              end) as [u|] eqn:Hu.
    - apply (git_errors_only_bind (w_env w) (ret u)
               (fun upstream => git (OpFetch upstream) ;; _));
        [apply git_errors_only_ret
        |intros u'; now apply git_errors_only_sync_rest
        |reflexivity].
    - destruct Hurl as [Hurl|Hurl]; [|rewrite Hfound in Hurl; congruence].
      destruct (repo_url_alt cfg) as [url|] eqn:Eurl; [|congruence].
      apply (git_errors_only_bind (w_env w)
               (u <- create_remote (remote_upstream cfg) (Some url) ;;
                log INFO "Added upstream remote %s -> %s"
                    [py_str (remote_upstream cfg); py_str (Some url)] ;;
                ret u)
               (fun upstream => git (OpFetch upstream) ;; _));
        [now apply git_errors_only_create_remote
        |intros u'; now apply git_errors_only_sync_rest
        |reflexivity]. }
  unfold sync_with_upstream, try_except.
  destruct (sync_body cfg w) as [[[]|e|c] w1]; cbn [fst] in *;
    [reflexivity | subst e; reflexivity | tauto].
Qed.




(** An exception that leaves the body of the [try] of [main] ends the run
    with [sys.exit(1)], after one line in the log. *)
Lemma main_exits_when_workflow_raises (w_start w0 w' : World) (e : ExcClass) :
  setup_logger w_start = (Ok tt, w0) ->
  workflow (Config_init (w_env w0)) (with_log w0 (starting_line :: w_log w0))
    = (Raise e, w') ->
  main w_start
  = (Exit 1, with_log w' (mkLog EXCEPTION "Fatal error during workflow: %s"
                                [exc_name e] :: w_log w')).
Proof.
  intros H0 Hw. unfold main. run_bind H0.
  unfold bind at 1, get_env. cbn beta iota zeta.
  unfold bind at 1. rewrite log_spec. cbn beta iota zeta.
  unfold try_except. fold starting_line. cbn [w_env with_log].
  rewrite Hw. cbn [is_Exception]. reflexivity.
Qed.

Lemma workflow_raises_at_generate (cfg : Config) (wa w1 w2 w3 : World)
    (e : ExcClass) :
  GitManager_init cfg None wa = (Ok tt, w1) ->
  sync_with_upstream cfg w1 = (Ok tt, w2) ->
  generate_daily_content cfg None w2 = (Raise e, w3) ->
  workflow cfg wa = (Raise e, w3).
Proof.
  intros H1 H2 H3. unfold workflow.
  run_bind H1. run_bind H2. run_bind H3. reflexivity.
Qed.





Lemma os_path_join_ok_some (a b : option string) (r : string) :
  os_path_join a b = Ok r -> exists a' b', a = Some a' /\ b = Some b'.
Proof. destruct a, b; try discriminate. eauto. Qed.

(** [generate_daily_content] up to its first write. *)
Lemma generate_until_digest (cfg : Config) (d : option date) (w w1 : World)
    (nd file_path : string) :
  let e := w_env w in
  let d' := match d with Some x => x | None => today e end in
  os_path_join (fork_path cfg) (news_dir cfg) = Ok nd ->
  ensure_dir (Path_of nd) w = (Ok tt, w1) ->
  os_path_join (Some nd) (Some (digest_filename_for_date e (Some d'))) = Ok file_path ->
  generate_daily_content cfg d w
  = bind (try_except
            (write_text_file file_path (_build_content e d') ;;
             log INFO "Generated content at %s" [file_path])
            is_Exception
            (fun exc =>
               log EXCEPTION "Failed to write digest file: %s" [exc_name exc] ;;
               raise exc))
         (fun _ =>
            branch_file_path <- lift (os_path_join (fork_path cfg)
                                                   (Some "branch_name.txt")) ;;
            try_except
              (write_text_file branch_file_path (branch_name_for_date e (Some d')) ;;
               log DEBUG "Wrote branch_name.txt with %s"
                   [branch_name_for_date e (Some d')])
              is_Exception
              (fun exc => log EXCEPTION "Could not persist branch_name.txt: %s"
                              [exc_name exc]) ;;
            ret (branch_name_for_date e (Some d'), file_path))
         w1.
Proof.
  cbn zeta. intros Hj Hmk Hf. unfold generate_daily_content.
  unfold bind at 1, get_env. cbn beta iota zeta.
  unfold bind at 1, lift. rewrite Hj. cbn beta iota zeta.
  unfold bind at 1. rewrite Hmk. cbn beta iota zeta.
  unfold bind at 1. rewrite Hf. cbn beta iota zeta.
  reflexivity.
Qed.

(** C4. In [generate_daily_content], an exception raised while the digest
    file is written is logged and raised again, which ends a run of [main]
    with exit status 1; an exception raised while branch_name.txt is written
    is logged and dropped: once the digest is written the function returns
    (branch_name, file_path) whatever happens to the sidecar file. *)
Theorem digest_write_fatal_sidecar_write_not (cfg : Config) (d : option date)
    (w w1 : World) (nd file_path : string) :
  let e := w_env w in
  let d' := match d with Some x => x | None => today e end in
  let branch_name := branch_name_for_date e (Some d') in
  let content := _build_content e d' in
  os_path_join (fork_path cfg) (news_dir cfg) = Ok nd ->
  ensure_dir (Path_of nd) w = (Ok tt, w1) ->
  os_path_join (Some nd) (Some (digest_filename_for_date e (Some d'))) = Ok file_path ->
  (forall exc w2,
      write_text_file file_path content w1 = (Raise exc, w2) ->
      generate_daily_content cfg d w
      = (Raise exc,
         with_log w2 (mkLog EXCEPTION "Failed to write digest file: %s" [exc_name exc]
                        :: w_log w2))
      /\ forall w_start, d = None -> reaches_generate w_start cfg w ->
                         fst (main w_start) = Exit 1)
  /\ (forall w2,
        write_text_file file_path content w1 = (Ok tt, w2) ->
        exists bfp,
          os_path_join (fork_path cfg) (Some "branch_name.txt") = Ok bfp
          /\ fst (generate_daily_content cfg d w) = Ok (branch_name, file_path)
          /\ forall exc w3,
               write_text_file bfp branch_name
                 (with_log w2 (mkLog INFO "Generated content at %s" [file_path]
                                 :: w_log w2))
               = (Raise exc, w3) ->
               generate_daily_content cfg d w
               = (Ok (branch_name, file_path),
                  with_log w3 (mkLog EXCEPTION "Could not persist branch_name.txt: %s"
                                     [exc_name exc] :: w_log w3))).
Proof.
  cbn zeta. intros Hj Hmk Hf.
  pose proof (generate_until_digest cfg d w w1 nd file_path Hj Hmk Hf) as Hgen.
  cbn zeta in Hgen. split.
  - intros exc w2 Hw.
    assert (Hg : generate_daily_content cfg d w
                 = (Raise exc,
                    with_log w2 (mkLog EXCEPTION "Failed to write digest file: %s"
                                       [exc_name exc] :: w_log w2))).
    { rewrite Hgen. unfold bind at 1, try_except. unfold bind at 1. rewrite Hw.
      cbn beta iota zeta. cbn [is_Exception]. reflexivity. }
    split; [exact Hg|].
    intros w_start -> (w0 & wa & H0 & -> & H1 & H2).
    pose proof (workflow_raises_at_generate _ _ _ _ _ _ H1 H2 Hg) as Hwf.
    now rewrite (main_exits_when_workflow_raises _ _ _ _ H0 Hwf).
  - intros w2 Hw.
    destruct (os_path_join_ok_some _ _ _ Hj) as (fp & ndir & Hfp & _).
    destruct (os_path_join_some fp "branch_name.txt") as [bfp Hb].
    rewrite <- Hfp in Hb. exists bfp. split; [exact Hb|].
    assert (Hrun : generate_daily_content cfg d w
                   = bind (try_except
                             (write_text_file bfp
                                (branch_name_for_date (w_env w)
                                   (Some match d with Some x => x | None => today (w_env w) end)) ;;
                              log DEBUG "Wrote branch_name.txt with %s"
                                  [branch_name_for_date (w_env w)
                                     (Some match d with Some x => x | None => today (w_env w) end)])
                             is_Exception
                             (fun exc => log EXCEPTION "Could not persist branch_name.txt: %s"
                                             [exc_name exc]))
                          (fun _ => ret (branch_name_for_date (w_env w)
                                           (Some match d with Some x => x | None => today (w_env w) end),
                                         file_path))
                          (with_log w2 (mkLog INFO "Generated content at %s" [file_path]
                                          :: w_log w2))).
    { rewrite Hgen. unfold bind at 1, try_except at 1. unfold bind at 1. rewrite Hw.
      cbn beta iota zeta. rewrite log_spec. cbn beta iota zeta.
      unfold bind at 1, lift. rewrite Hb. cbn beta iota zeta. reflexivity. }
    rewrite Hrun. split.
    + unfold bind at 1, try_except. unfold bind at 1.
      destruct (write_text_file bfp _ _) as [[[]|exc|c] w3] eqn:Hs; cbn; try reflexivity.
      now apply write_no_exit in Hs.
    + intros exc w3 Hs. unfold bind at 1, try_except. unfold bind at 1.
      rewrite Hs. cbn. reflexivity.
Qed.

(** When only branch_name.txt cannot be written, the digest is generated,
    the failure is logged and the call returns the branch and the path. *)
Lemma digest_write_fatal_sidecar_write_not_sample :
  let faulty := generate_daily_content sample_config (Some date_20251007)
                                       sidecar_fault_world in
  fst faulty = Ok ("feature/news-20251007", "/srv/bot/news/digest_20251007.md")
  /\ hd_error (w_log (snd faulty))
     = Some (mkLog EXCEPTION "Could not persist branch_name.txt: %s" ["OSError"]).
Proof.
  cbn zeta.
  pose (nd := "/srv/bot/news").
  pose (fp := "/srv/bot/news/digest_20251007.md").
  assert (H : exists w1 w2,
             ensure_dir (Path_of nd) sidecar_fault_world = (Ok tt, w1)
             /\ write_text_file fp (_build_content (w_env sidecar_fault_world)
                                                   date_20251007) w1
                = (Ok tt, w2)).
  { eexists. eexists. split; by_outcome. }
  destruct H as (w1 & w2 & Hmk & Hw).
  destruct (digest_write_fatal_sidecar_write_not sample_config (Some date_20251007)
              sidecar_fault_world w1 nd fp eq_refl Hmk eq_refl) as [_ Hok].
  destruct (Hok w2 Hw) as (bfp & _ & Hfst & _).
  split; [exact Hfst|]. vm_compute. reflexivity.
Defined.

(* ===================================================================== *)
(** ** utils.py and config.py: names and URLs                             *)
(* ===================================================================== *)

Lemma zero_padded_length (w : nat) (n : N) : String.length (zero_padded w n) = w.
Proof.
  revert n. induction w as [|w IH]; intros n; [reflexivity|].
  cbn [zero_padded]. rewrite length_append, IH. simpl. lia.
Qed.

(** Two strings cut at the same length are equal part by part. *)
Lemma append_inj_length (a a' b b' : string) :
  String.length a = String.length a' -> a +:+ b = a' +:+ b' -> a = a' /\ b = b'.
Proof.
  revert a'. induction a as [|x a IH]; intros [|y a'] Hl H; simpl in Hl;
    try discriminate.
  - split; [reflexivity | exact H].
  - rewrite !append_cons in H. injection H as -> H.
    injection Hl as Hl. destruct (IH a' Hl H) as [-> ->]. split; reflexivity.
Qed.

Lemma digit_char_code (n : N) : N_of_ascii (digit_char n) = (48 + n mod 10)%N.
Proof.
  unfold digit_char. apply N_ascii_embedding.
  pose proof (N.mod_upper_bound n 10). lia.
Qed.

Lemma digit_char_inj (a b : N) :
  digit_char a = digit_char b -> (a mod 10 = b mod 10)%N.
Proof.
  intros H. apply (f_equal N_of_ascii) in H. rewrite !digit_char_code in H. lia.
Qed.

(** The digits tell the number, up to the width. *)
Lemma zero_padded_inj (w : nat) (a b : N) :
  zero_padded w a = zero_padded w b ->
  (a mod 10 ^ N.of_nat w = b mod 10 ^ N.of_nat w)%N.
Proof.
  revert a b. induction w as [|w IH]; intros a b H.
  - change (10 ^ N.of_nat 0)%N with 1%N. now rewrite !N.mod_1_r.
  - cbn [zero_padded] in H.
    apply append_inj_length in H; [|now rewrite !zero_padded_length].
    destruct H as [Hhi Hlo]. apply IH in Hhi.
    injection Hlo as Hlo. apply digit_char_inj in Hlo.
    rewrite Nat2N.inj_succ, N.pow_succ_r'.
    rewrite !N.Div0.mod_mul_r. now rewrite Hhi, Hlo.
Qed.

Lemma YYYYMMDD_inj (d1 d2 : date) :
  valid_date d1 = true -> valid_date d2 = true ->
  YYYYMMDD d1 = YYYYMMDD d2 -> d1 = d2.
Proof.
  intros H1 H2 H.
  destruct (valid_date_bounds d1 H1) as (Hy1 & Hm1 & Hd1).
  destruct (valid_date_bounds d2 H2) as (Hy2 & Hm2 & Hd2).
  unfold YYYYMMDD in H.
  apply append_inj_length in H; [|now rewrite !zero_padded_length].
  destruct H as [Hy H].
  apply append_inj_length in H; [|now rewrite !zero_padded_length].
  destruct H as [Hm Hd].
  apply zero_padded_inj in Hy, Hm, Hd.
  change (10 ^ N.of_nat 4)%N with 10000%N in Hy.
  change (10 ^ N.of_nat 2)%N with 100%N in Hm, Hd.
  rewrite !N.mod_small in Hy, Hm, Hd by lia.
  destruct d1 as [y1 m1 dd1], d2 as [y2 m2 dd2]. simpl in *.
  f_equal; lia.
Qed.

(** X3. Branch names and digest file names are one-to-one with the dates:
    two dates get the same branch name exactly when they are the same
    date, and likewise for the file name; the environment plays no part
    once the date is given. *)
Theorem names_one_to_one (e e' : Env) (d1 d2 : date) :
  valid_date d1 = true -> valid_date d2 = true ->
  (branch_name_for_date e (Some d1) = branch_name_for_date e' (Some d2) <-> d1 = d2)
  /\ (digest_filename_for_date e (Some d1) = digest_filename_for_date e' (Some d2)
      <-> d1 = d2).
Proof.
  intros H1 H2. unfold branch_name_for_date, digest_filename_for_date.
  rewrite (iso_date_string_code e d1 H1), (iso_date_string_code e' d2 H2).
  split; (split; [|now intros ->]); intros H.
  - apply append_inv_head in H. now apply YYYYMMDD_inj.
  - apply append_inv_head, append_inv_tail in H. now apply YYYYMMDD_inj.
Qed.

(** Two days in a row get different names. *)
Lemma names_one_to_one_sample :
  branch_name_for_date quiet_env (Some date_20251007)
  <> branch_name_for_date quiet_env (Some (mkdate 2025 10 8))
  /\ digest_filename_for_date quiet_env (Some date_20251007)
     <> digest_filename_for_date quiet_env (Some (mkdate 2025 10 8)).
Proof.
  destruct (names_one_to_one quiet_env quiet_env date_20251007 (mkdate 2025 10 8)
              eq_refl eq_refl) as [Hb Hf].
  split; intros H; [apply Hb in H | apply Hf in H]; discriminate H.
Defined.

Lemma string_mem_append (c : ascii) (a b : string) :
  string_mem c (a +:+ b) = string_mem c a || string_mem c b.
Proof.
  induction a as [|x a IH]; [reflexivity|].
  rewrite append_cons. simpl. rewrite IH. now rewrite orb_assoc.
Qed.

(** Two strings cut at their first slash are equal part by part. *)
Lemma append_slash_inj (a a' b b' : string) :
  string_mem "/" a = false -> string_mem "/" a' = false ->
  a +:+ String "/" b = a' +:+ String "/" b' -> a = a' /\ b = b'.
Proof.
  revert a'. induction a as [|x a IH]; intros [|y a'] Ha Ha' H.
  - injection H as ->. split; reflexivity.
  - rewrite append_cons in H. injection H as <- _. simpl in Ha'. discriminate.
  - rewrite append_cons in H. injection H as -> _. simpl in Ha. discriminate.
  - rewrite !append_cons in H. injection H as -> H.
    simpl in Ha, Ha'. apply orb_false_elim in Ha, Ha'.
    destruct (IH a' (proj2 Ha) (proj2 Ha') H) as [-> ->]. split; reflexivity.
Qed.

(** X4. The configuration has an upstream URL exactly when REPO_OWNER_ALT
    and REPO_NAME_ALT are both set to a string that is not empty: an empty
    value counts as a missing one.  The URL is then
    https://github.com/<owner>/<name>.git. *)
Theorem repo_url_when_owner_and_name (e : Env) :
  let owner := environ e "REPO_OWNER_ALT" in
  let name := environ e "REPO_NAME_ALT" in
  let url := repo_url_alt (Config_init e) in
  (url = None <-> owner = None \/ owner = Some "" \/ name = None \/ name = Some "")
  /\ (forall u, url = Some u ->
        exists o n, owner = Some o /\ name = Some n /\ o <> "" /\ n <> ""
                    /\ u = "https://github.com/" +:+ o +:+ "/" +:+ n +:+ ".git").
Proof.
  cbn zeta. unfold Config_init, _build_repo_url. cbn [repo_url_alt].
  destruct (environ e "REPO_OWNER_ALT") as [[|c o]|];
    destruct (environ e "REPO_NAME_ALT") as [[|c' n]|]; cbn [py_truthy andb py_str];
    (split; [split; [intros H; try discriminate H; tauto
                    |intros H; try reflexivity;
                     destruct H as [H|[H|[H|H]]]; discriminate H]
            |intros u H; try discriminate H]).
  injection H as <-. exists (String c o), (String c' n).
  repeat split; discriminate.
Qed.

(** X5. The upstream URL tells the owner and the name it was built from:
    two pairs of an owner without a slash and a name that give the same
    URL are the same pair. *)
Theorem repo_url_one_to_one (o n o' n' : string) :
  string_mem "/" o = false -> string_mem "/" o' = false ->
  o <> "" -> n <> "" ->
  _build_repo_url (Some o) (Some n) = _build_repo_url (Some o') (Some n') ->
  o = o' /\ n = n'.
Proof.
  unfold _build_repo_url. cbn [py_str].
  intros Ho Ho' Hne Hnn H.
  destruct o as [|c o]; [congruence|]. destruct n as [|c' n]; [congruence|].
  change (py_truthy (Some (String c o)) && py_truthy (Some (String c' n)))
    with true in H.
  destruct (py_truthy (Some o') && py_truthy (Some n')); cbv beta iota in H;
    [|discriminate H].
  injection H as H.
  apply append_inv_head in H.
  change ("/" +:+ String c' n +:+ ".git") with (String "/" (String c' n +:+ ".git")) in H.
  change ("/" +:+ n' +:+ ".git") with (String "/" (n' +:+ ".git")) in H.
  apply append_slash_inj in H; [|assumption|assumption].
  destruct H as [-> H]. apply append_inv_tail in H. now subst.
Qed.

(** Two repositories of one owner have different URLs. *)
Lemma repo_url_one_to_one_sample :
  _build_repo_url (Some "acme") (Some "news")
  <> _build_repo_url (Some "acme") (Some "tools").
Proof.
  intros H.
  apply (repo_url_one_to_one "acme" "news" "acme" "tools") in H;
    [destruct H as [_ H]; discriminate H
    |reflexivity|reflexivity|discriminate|discriminate].
Defined.

(* ===================================================================== *)
(** ** Paths: the last component of a joined path                         *)
(* ===================================================================== *)

Lemma digit_char_not_slash (n : N) : Ascii.eqb (digit_char n) "/" = false.
Proof.
  apply Ascii.eqb_neq. intros H. apply (f_equal N_of_ascii) in H.
  rewrite digit_char_code in H. change (N_of_ascii "/"%char) with 47%N in H.
  remember (n mod 10)%N as m. lia.
Qed.

Lemma decimal_aux_no_slash (f : nat) (n : N) (acc : string) :
  string_mem "/" acc = false -> string_mem "/" (decimal_aux f n acc) = false.
Proof.
  revert n acc. induction f as [|f IH]; intros n acc H; [exact H|].
  assert (H' : string_mem "/" (String (digit_char n) acc) = false)
    by (simpl; now rewrite digit_char_not_slash, H).
  cbn [decimal_aux]. destruct (n / 10 =? 0)%N; [exact H'|now apply IH].
Qed.

Lemma zfill_decimal_no_slash (k : nat) (n : N) :
  string_mem "/" (zfill k (decimal n)) = false.
Proof.
  unfold zfill. rewrite string_mem_append.
  assert (Hr : forall j, string_mem "/" (repeat_char "0" j) = false)
    by (induction j as [|j IH]; [reflexivity | exact IH]).
  rewrite Hr. unfold decimal. now apply decimal_aux_no_slash.
Qed.

Lemma iso_date_string_no_slash (e : Env) (d : option date) :
  string_mem "/" (iso_date_string e d) = false.
Proof.
  unfold iso_date_string. rewrite strftime_compact.
  now rewrite !string_mem_append, !zfill_decimal_no_slash.
Qed.

(** Whatever the date, the name of the digest holds no separator. *)
Lemma digest_filename_no_slash (e : Env) (d : option date) :
  string_mem "/" (digest_filename_for_date e d) = false.
Proof.
  unfold digest_filename_for_date.
  now rewrite !string_mem_append, iso_date_string_no_slash.
Qed.

Lemma digest_filename_head (e : Env) (d : option date) :
  exists rest, digest_filename_for_date e d = String "d" rest.
Proof. unfold digest_filename_for_date. eexists. now rewrite append_cons. Qed.

Lemma digest_filename_keep (e : Env) (d : option date) :
  keep_part (digest_filename_for_date e d) = true.
Proof. destruct (digest_filename_head e d) as [rest ->]. reflexivity. Qed.

Lemma split_slash_not_nil (s : string) : split_slash s <> [].
Proof.
  induction s as [|c s IH]; simpl; [discriminate|].
  destruct (Ascii.eqb c "/"); [discriminate|].
  destruct (split_slash s); discriminate.
Qed.

Lemma split_slash_plain (n : string) :
  string_mem "/" n = false -> split_slash n = [n].
Proof.
  induction n as [|c n IH]; intros H; [reflexivity|].
  simpl in *. apply orb_false_elim in H. destruct H as [Hc Hn].
  rewrite Hc, (IH Hn). reflexivity.
Qed.

Lemma split_slash_app (pre n : string) :
  string_mem "/" n = false ->
  split_slash (pre +:+ String "/" n) = (split_slash pre ++ [n])%list.
Proof.
  intros Hn. induction pre as [|c pre IH].
  - change ("" +:+ String "/" n) with (String "/" n). simpl.
    now rewrite (split_slash_plain n Hn).
  - rewrite append_cons. simpl. rewrite IH.
    destruct (Ascii.eqb c "/"); [reflexivity|].
    pose proof (split_slash_not_nil pre) as Hne.
    destruct (split_slash pre); [congruence | reflexivity].
Qed.

Lemma endswith_slash_inv (a : string) :
  endswith_slash a = true -> exists a0, a = a0 +:+ "/".
Proof.
  unfold endswith_slash. destruct (String.length a) as [|k] eqn:El; [discriminate|].
  intros H. apply String.eqb_eq in H.
  exists (String.substring 0 k a).
  rewrite <- (substring_split a k) at 1 by lia.
  rewrite El. replace (S k - k)%nat with 1%nat by lia. now rewrite H.
Qed.

Lemma no_slash_startswith (n : string) :
  string_mem "/" n = false -> startswith "/" n = false.
Proof.
  destruct n as [|c n]; [reflexivity|]. cbn [string_mem]. intros H.
  apply orb_false_elim in H. destruct H as [Hc _].
  unfold startswith. cbn [String.prefix].
  destruct (ascii_dec "/" c) as [<-|]; [discriminate Hc | reflexivity].
Qed.

(** What [os.path.join] returns on a relative second argument ends with
    it, after a slash or after nothing. *)
Lemma os_path_join_shape (a n f : string) :
  startswith "/" n = false ->
  os_path_join (Some a) (Some n) = Ok f ->
  f = n \/ exists pre, f = pre +:+ String "/" n.
Proof.
  unfold os_path_join. intros -> H.
  destruct (String.eqb a "") eqn:Ea; cbn [orb] in H.
  - apply String.eqb_eq in Ea. subst a. injection H as <-. now left.
  - destruct (endswith_slash a) eqn:Es; injection H as <-; right.
    + apply endswith_slash_inv in Es. destruct Es as [a0 ->].
      exists a0. now rewrite append_assoc.
    + exists a. reflexivity.
Qed.

(** The name of a path joined with a plain file name is that file name. *)
Lemma path_name_join (a n f : string) :
  string_mem "/" n = false -> keep_part n = true ->
  os_path_join (Some a) (Some n) = Ok f ->
  path_name (Path_of f) = n.
Proof.
  intros Hn Hk H.
  apply os_path_join_shape in H; [|now apply no_slash_startswith].
  unfold path_name, Path_of. cbn [snd].
  destruct H as [->|[pre ->]].
  - rewrite (split_slash_plain n Hn). simpl. now rewrite Hk.
  - rewrite (split_slash_app pre n Hn), List.filter_app. simpl. rewrite Hk.
    apply last_last.
Qed.

Lemma rsplit_slash_plain (n : string) :
  string_mem "/" n = false -> rsplit_slash n = n.
Proof.
  destruct n as [|c n]; [reflexivity|]. simpl. intros H.
  apply orb_false_elim in H. destruct H as [Hc Hn]. now rewrite Hn, Hc.
Qed.

(** So is its [os.path.basename]. *)
Lemma basename_join (a n f : string) :
  string_mem "/" n = false ->
  os_path_join (Some a) (Some n) = Ok f ->
  os_path_basename f = n.
Proof.
  intros Hn H.
  apply os_path_join_shape in H; [|now apply no_slash_startswith].
  unfold os_path_basename.
  destruct H as [->|[pre ->]]; [now apply rsplit_slash_plain|].
  induction pre as [|c pre IH].
  - change ("" +:+ String "/" n) with (String "/" n). simpl. now rewrite Hn.
  - rewrite append_cons. simpl.
    rewrite string_mem_append. simpl. rewrite orb_true_r. exact IH.
Qed.

(* ===================================================================== *)
(** ** utils.py: directories and the files a write leaves alone           *)
(* ===================================================================== *)

Lemma ancestors_of_self (root : string) (parts acc : list string) :
  In (root, (acc ++ parts)%list) (ancestors_of root parts acc).
Proof.
  revert acc. induction parts as [|x parts IH]; intros acc; simpl.
  - left. now rewrite app_nil_r.
  - right. specialize (IH (acc ++ [x])%list). now rewrite <- app_assoc in IH.
Qed.

Lemma with_ancestors_self (p : Path) : In p (with_ancestors p).
Proof.
  destruct p as [root parts]. exact (ancestors_of_self root parts []).
Qed.

(** Making a directory changes no file. *)
Lemma mkdir_files (p : Path) (parents : bool) (f f' : FS) (r : Res unit) :
  fs_effect (FsMkdir p parents) f = (r, f') -> files f' = files f.
Proof.
  intros E. apply map_eq. intros q.
  now apply (fs_effect_frame (FsMkdir p parents) f f' r q (fun x => x)).
Qed.

Lemma mkdir_parents_ok (p : Path) (f f' : FS) :
  fs_effect (FsMkdir p true) f = (Ok tt, f') ->
  is_file f p = false /\ is_dir f' p = true /\ dirs f ⊆ dirs f'.
Proof.
  simpl. destruct (is_file f p) eqn:Ef; [discriminate|].
  destruct (is_dir f p) eqn:Ed.
  - intros [= <-]. auto.
  - destruct (existsb _ _); [discriminate|]. intros [= <-]. simpl.
    split; [reflexivity|]. split; [|apply union_subseteq_l].
    unfold is_dir. simpl. apply orb_true_intro. left.
    apply bool_decide_eq_true. apply elem_of_union_r, elem_of_list_to_set.
    apply list_elem_of_In, with_ancestors_self.
Qed.

(** X6. [ensure_dir] is idempotent: once it has returned, the directory
    exists, no file was changed and no directory removed, nothing but the
    file system was touched, and a second call on the same path returns
    without changing anything (unless the operating system fails it). *)
Theorem ensure_dir_idempotent (p : Path) (w w1 : World) :
  ensure_dir p w = (Ok tt, w1) ->
  is_dir (w_fs w1) p = true
  /\ files (w_fs w1) = files (w_fs w)
  /\ dirs (w_fs w) ⊆ dirs (w_fs w1)
  /\ same_but_fs w w1
  /\ (fs_fault (w_env w1) (w_fs w1) (FsMkdir p true) = None ->
      ensure_dir p w1 = (Ok tt, w1)).
Proof.
  unfold ensure_dir. intros H. apply fsop_inv in H.
  destruct H as [(e & _ & ? & _)|(f' & _ & E & ->)]; [discriminate|].
  pose proof (mkdir_files _ _ _ _ _ E) as Hf.
  apply mkdir_parents_ok in E. destruct E as (Hnf & Hd & Hsub).
  cbn [w_fs with_fs w_env].
  split; [exact Hd|]. split; [exact Hf|]. split; [exact Hsub|].
  split; [repeat split|].
  intros Hnofault. unfold fsop. cbn [w_fs with_fs w_env]. rewrite Hnofault.
  cbn [fs_effect]. unfold is_file in *. rewrite Hf, Hnf, Hd.
  now destruct w.
Qed.

(** The news directory of the sample fork, made and made again. *)
Lemma ensure_dir_idempotent_sample :
  let w1 := snd (ensure_dir (Path_of "/srv/bot/news") sample_world) in
  is_dir (w_fs w1) (Path_of "/srv/bot/news") = true
  /\ ensure_dir (Path_of "/srv/bot/news") w1 = (Ok tt, w1).
Proof.
  cbn zeta.
  assert (H : ensure_dir (Path_of "/srv/bot/news") sample_world
              = (Ok tt, snd (ensure_dir (Path_of "/srv/bot/news") sample_world)))
    by by_outcome.
  destruct (ensure_dir_idempotent _ _ _ H) as (Hd & _ & _ & _ & Hi).
  split; [exact Hd | apply Hi; reflexivity].
Defined.

(** X7. [ensure_dir] on a path that is a regular file does not return
    normally, and changes nothing. *)
Theorem ensure_dir_file_in_the_way (p : Path) (w : World) :
  is_file (w_fs w) p = true ->
  fst (ensure_dir p w) <> Ok tt /\ snd (ensure_dir p w) = w.
Proof.
  intros Hf. unfold ensure_dir, fsop.
  destruct (fs_fault _ _ _); [split; [discriminate | reflexivity]|].
  cbn [fs_effect]. rewrite Hf. split; [discriminate | now destruct w].
Qed.

Lemma ensure_dir_file_in_the_way_sample :
  is_file (w_fs rerun_world) digest_path = true
  /\ fst (ensure_dir digest_path rerun_world) = Raise OSError
  /\ snd (ensure_dir digest_path rerun_world) = rerun_world.
Proof.
  split; [reflexivity|]. split; [reflexivity|].
  exact (proj2 (ensure_dir_file_in_the_way digest_path rerun_world eq_refl)).
Defined.

Lemma write_frame (path content : string) (q : Path) (v : option string) :
  q <> Path_of path ->
  (forall tmp, tmp_path_of (Path_of path) = Ok tmp -> q <> tmp) ->
  keeps (file_is q v) (write_text_file path content).
Proof.
  intros Hq Htmp. unfold write_text_file. cbn zeta.
  apply keeps_bind; [apply fsop_keeps; exact (fun x => x)|]. intros _.
  apply keeps_bind_lift. intros tmp Ht. specialize (Htmp tmp Ht).
  apply run_ops_keeps. unfold write_steps.
  constructor; [cbn; congruence|].
  apply Forall_app. split.
  - apply List.Forall_forall. intros op Hin.
    apply in_map_iff in Hin. destruct Hin as (c & <- & _). cbn. congruence.
  - constructor; [|constructor]. cbn. intros [H|H]; congruence.
Qed.

Lemma same_but_fs_refl (w : World) : same_but_fs w w.
Proof. repeat split. Qed.

Lemma fsop_same_but_fs (op : FsOp) (w0 : World) : keeps (same_but_fs w0) (fsop op).
Proof.
  intros w H. destruct (fsop op w) as [r w'] eqn:E. cbn [snd].
  apply fsop_inv in E. destruct E as [(e' & _ & _ & ->)|(f' & _ & _ & ->)];
    [exact H | exact H].
Qed.

Lemma run_ops_same_but_fs (ops : list FsOp) (w0 : World) :
  keeps (same_but_fs w0) (run_ops ops).
Proof.
  induction ops as [|op ops IH]; simpl; [apply keeps_ret|].
  apply keeps_bind; [apply fsop_same_but_fs | intros _; exact IH].
Qed.

Lemma write_same_but_fs (path content : string) (w0 : World) :
  keeps (same_but_fs w0) (write_text_file path content).
Proof.
  unfold write_text_file. cbn zeta.
  apply keeps_bind; [apply fsop_same_but_fs|]. intros _.
  apply keeps_bind_lift. intros tmp _. apply run_ops_same_but_fs.
Qed.

(** X8. Whatever way [write_text_file] ends, it leaves every file other
    than its target and its temporary file as it was, and it touches
    nothing but the file system: repository, log, handlers and environment
    are the same. *)
Theorem write_text_file_frame (path content : string) (w : World) (q : Path) :
  q <> Path_of path ->
  (forall tmp, tmp_path_of (Path_of path) = Ok tmp -> q <> tmp) ->
  let w' := snd (write_text_file path content w) in
  files (w_fs w') !! q = files (w_fs w) !! q
  /\ same_but_fs w w'.
Proof.
  intros Hq Htmp. cbn zeta. split.
  - exact (write_frame path content q _ Hq Htmp w eq_refl).
  - exact (write_same_but_fs path content w w (same_but_fs_refl w)).
Qed.

(** Writing branch_name.txt leaves yesterday's digest alone. *)
Lemma write_text_file_frame_sample :
  files (w_fs (snd (write_text_file "/srv/bot/branch_name.txt" "feature/news-20251007"
                                    rerun_world))) !! digest_path
  = Some "old text".
Proof.
  assert (Hq : digest_path <> Path_of "/srv/bot/branch_name.txt")
    by (intros H; vm_compute in H; discriminate H).
  assert (Ht : forall tmp, tmp_path_of (Path_of "/srv/bot/branch_name.txt") = Ok tmp ->
                           digest_path <> tmp)
    by (intros tmp H; vm_compute in H; injection H as <-; discriminate).
  destruct (write_text_file_frame "/srv/bot/branch_name.txt" "feature/news-20251007"
              rerun_world digest_path Hq Ht) as [H _].
  rewrite H. reflexivity.
Defined.

(** X9. When [write_branch_name_file] returns, the file branch_name.txt
    of the repository root holds exactly the branch name, and nothing but
    the file system was touched. *)
Theorem write_branch_name_file_ok (repo_root branch_name : string) (w w' : World) :
  write_branch_name_file repo_root branch_name w = (Ok tt, w') ->
  exists path,
    os_path_join (Some repo_root) (Some "branch_name.txt") = Ok path
    /\ path_name (Path_of path) = "branch_name.txt"
    /\ files (w_fs w') !! Path_of path = Some branch_name
    /\ same_but_fs w w'.
Proof.
  unfold write_branch_name_file. intros H.
  apply bind_inv in H.
  destruct H as [(path & wa & Hp & H)|[(e' & _ & ?)|(c & _ & ?)]]; try discriminate.
  unfold lift in Hp. injection Hp as Hp <-.
  exists path. split; [exact Hp|]. split.
  - now apply (path_name_join repo_root _ path).
  - split.
    + apply write_ok in H. now destruct H as (_ & _ & H & _).
    + pose proof (write_same_but_fs path branch_name w w (same_but_fs_refl w)) as Hk.
      now rewrite H in Hk.
Qed.

Lemma write_branch_name_file_ok_sample :
  exists path,
    os_path_join (Some "/srv/bot") (Some "branch_name.txt") = Ok path
    /\ files (w_fs (snd (write_branch_name_file "/srv/bot" "feature/news-20251007"
                                                sample_world))) !! Path_of path
       = Some "feature/news-20251007".
Proof.
  assert (H : write_branch_name_file "/srv/bot" "feature/news-20251007" sample_world
              = (Ok tt, snd (write_branch_name_file "/srv/bot" "feature/news-20251007"
                                                    sample_world)))
    by by_outcome.
  destruct (write_branch_name_file_ok _ _ _ _ H) as (path & Hp & _ & Hf & _).
  exists path. split; [exact Hp | exact Hf].
Defined.

(* ===================================================================== *)
(** ** content_generator.py: what a return of the generation tells        *)
(* ===================================================================== *)

Lemma generate_ok_inv (cfg : Config) (d : option date) (w w' : World) (b f : string) :
  generate_daily_content cfg d w = (Ok (b, f), w') ->
  let e := w_env w in
  let d' := run_date w d in
  exists nd fp w1 w2 bfp,
    os_path_join (fork_path cfg) (news_dir cfg) = Ok nd
    /\ fork_path cfg = Some fp
    /\ os_path_join (Some nd) (Some (digest_filename_for_date e (Some d'))) = Ok f
    /\ b = branch_name_for_date e (Some d')
    /\ ensure_dir (Path_of nd) w = (Ok tt, w1)
    /\ write_text_file f (_build_content e d') w1 = (Ok tt, w2)
    /\ os_path_join (Some fp) (Some "branch_name.txt") = Ok bfp
    /\ ((exists w3,
           write_text_file bfp b
             (with_log w2 (mkLog INFO "Generated content at %s" [f] :: w_log w2))
           = (Ok tt, w3)
           /\ w' = with_log w3 (mkLog DEBUG "Wrote branch_name.txt with %s" [b]
                                  :: w_log w3))
        \/ (exists exc w3,
              write_text_file bfp b
                (with_log w2 (mkLog INFO "Generated content at %s" [f] :: w_log w2))
              = (Raise exc, w3)
              /\ w' = with_log w3 (mkLog EXCEPTION "Could not persist branch_name.txt: %s"
                                     [exc_name exc] :: w_log w3))).
Proof.
  intros H. cbn zeta. unfold run_date.
  unfold generate_daily_content in H.
  unfold bind at 1, get_env in H. cbn beta iota zeta in H.
  apply bind_inv in H.
  destruct H as [(nd & wa & Hnd & H)|[(e' & _ & ?)|(c & _ & ?)]]; try discriminate.
  unfold lift in Hnd. injection Hnd as Hnd <-.
  destruct (os_path_join_ok_some _ _ _ Hnd) as (fp & ndir & Hfp & _).
  apply bind_inv in H.
  destruct H as [([] & w1 & Hmk & H)|[(e' & _ & ?)|(c & _ & ?)]]; try discriminate.
  apply bind_inv in H.
  destruct H as [(f' & wb & Hf & H)|[(e' & _ & ?)|(c & _ & ?)]]; try discriminate.
  unfold lift in Hf. injection Hf as Hf <-.
  apply bind_inv in H.
  destruct H as [([] & w2' & Hw & H)|[(e' & _ & ?)|(c & _ & ?)]]; try discriminate.
  unfold try_except in Hw.
  unfold bind at 1 in Hw.
  destruct (write_text_file f' _ w1) as [[[]|exc|c] w2] eqn:Hw1;
    cbn beta iota zeta in Hw; [| |discriminate].
  2:{ cbn [is_Exception] in Hw. unfold bind, log, raise in Hw. discriminate. }
  rewrite log_spec in Hw. injection Hw as <-.
  apply bind_inv in H.
  destruct H as [(bfp & wc & Hb & H)|[(e' & _ & ?)|(c & _ & ?)]]; try discriminate.
  unfold lift in Hb. injection Hb as Hb <-.
  apply bind_inv in H.
  destruct H as [([] & w4 & Hs & H)|[(e' & _ & ?)|(c & _ & ?)]]; try discriminate.
  unfold ret in H. injection H as <- <- <-.
  exists nd, fp, w1, w2, bfp. rewrite Hfp in Hb.
  split; [exact Hnd|]. split; [exact Hfp|]. split; [exact Hf|].
  split; [reflexivity|]. split; [exact Hmk|]. split; [exact Hw1|].
  split; [exact Hb|].
  unfold try_except in Hs. unfold bind at 1 in Hs.
  destruct (write_text_file bfp _ _) as [[[]|exc|c] w3] eqn:Hs1;
    cbn beta iota zeta in Hs.
  - rewrite log_spec in Hs. injection Hs as <-. left. eauto.
  - cbn [is_Exception] in Hs. rewrite log_spec in Hs. injection Hs as <-.
    right. eauto.
  - discriminate.
Qed.

(** The digest and the sidecar file (and its temporary file) are
    different files. *)
Lemma sidecar_apart (e : Env) (d : option date) (nd fp f bfp : string) :
  os_path_join (Some nd) (Some (digest_filename_for_date e d)) = Ok f ->
  os_path_join (Some fp) (Some "branch_name.txt") = Ok bfp ->
  Path_of f <> Path_of bfp
  /\ forall tmp, tmp_path_of (Path_of bfp) = Ok tmp -> Path_of f <> tmp.
Proof.
  intros Hf Hb.
  apply path_name_join in Hf;
    [|apply digest_filename_no_slash|apply digest_filename_keep].
  apply path_name_join in Hb; [|reflexivity|reflexivity].
  destruct (digest_filename_head e d) as [rest Hd]. rewrite Hd in Hf.
  split.
  - intros Heq. rewrite Heq, Hb in Hf. discriminate Hf.
  - intros tmp Ht Heq. apply tmp_path_of_ok in Ht. destruct Ht as [_ ->].
    rewrite Heq in Hf. unfold path_with_name, path_name in Hf. cbn [snd] in Hf.
    rewrite last_last in Hf. fold (path_name (Path_of bfp)) in Hf.
    rewrite Hb in Hf. discriminate Hf.
Qed.

(** X10. [generate_daily_content] is idempotent in what it returns: two
    calls for the same date that return give the same branch name and the
    same file path, whatever the headline drawn and whatever the state of
    the file system and of the repository. *)
Theorem generate_names_stable (cfg : Config) (d : option date) (w w' : World) :
  run_date w d = run_date w' d ->
  (exists r, fst (generate_daily_content cfg d w) = Ok r) ->
  (exists r', fst (generate_daily_content cfg d w') = Ok r') ->
  fst (generate_daily_content cfg d w) = fst (generate_daily_content cfg d w').
Proof.
  intros Hd [[b f] H] [[b' f'] H'].
  destruct (generate_daily_content cfg d w) as [x w1] eqn:E.
  destruct (generate_daily_content cfg d w') as [x' w1'] eqn:E'.
  cbn [fst] in *. subst x x'.
  apply generate_ok_inv in E, E'. cbn zeta in E, E'.
  destruct E as (nd & fp & _ & _ & _ & Hnd & _ & Hf & -> & _).
  destruct E' as (nd' & fp' & _ & _ & _ & Hnd' & _ & Hf' & -> & _).
  rewrite Hnd in Hnd'. injection Hnd' as <-. rewrite <- Hd in Hf'.
  change (digest_filename_for_date (w_env w') (Some (run_date w d)))
    with (digest_filename_for_date (w_env w) (Some (run_date w d))) in Hf'.
  rewrite Hf in Hf'. injection Hf' as <-. rewrite Hd. reflexivity.
Qed.

(** Two runs for 2025-10-07 that draw different headlines. *)
Lemma generate_names_stable_sample :
  _build_content (w_env sample_world) date_20251007
  <> _build_content (w_env other_draw_world) date_20251007
  /\ fst (generate_daily_content sample_config (Some date_20251007) sample_world)
     = fst (generate_daily_content sample_config (Some date_20251007) other_draw_world).
Proof.
  split; [intros H; vm_compute in H; discriminate H|].
  apply generate_names_stable;
    [reflexivity | eexists; vm_compute; reflexivity | eexists; vm_compute; reflexivity].
Defined.

(** X11. When [generate_daily_content] returns (branch_name, file_path):
    the file at file_path holds the digest built for the date, whole; its
    name is the digest file name of the date; the branch name is the one
    of the date; and branch_name.txt under the fork path holds exactly the
    branch name, unless the failure to write it is the last line logged. *)
Theorem generate_leaves_digest (cfg : Config) (d : option date) (w w' : World)
    (b f : string) :
  generate_daily_content cfg d w = (Ok (b, f), w') ->
  files (w_fs w') !! Path_of f = Some (_build_content (w_env w) (run_date w d))
  /\ b = branch_name_for_date (w_env w) (Some (run_date w d))
  /\ path_name (Path_of f) = digest_filename_for_date (w_env w) (Some (run_date w d))
  /\ exists bfp,
       os_path_join (fork_path cfg) (Some "branch_name.txt") = Ok bfp
       /\ (files (w_fs w') !! Path_of bfp = Some b
           \/ exists exc,
                hd_error (w_log w')
                = Some (mkLog EXCEPTION "Could not persist branch_name.txt: %s"
                              [exc_name exc])).
Proof.
  intros H. apply generate_ok_inv in H. cbn zeta in H.
  destruct H as (nd & fp & w1 & w2 & bfp & Hnd & Hfp & Hf & -> & _ & Hw & Hb & Hs).
  destruct (sidecar_apart _ _ _ _ _ _ Hf Hb) as [Hne Hnt].
  apply write_ok in Hw. destruct Hw as (_ & _ & Hfile & _).
  assert (Hkeep : forall r w3,
             write_text_file bfp (branch_name_for_date (w_env w) (Some (run_date w d)))
               (with_log w2 (mkLog INFO "Generated content at %s" [f] :: w_log w2))
             = (r, w3) ->
             files (w_fs w3) !! Path_of f
             = Some (_build_content (w_env w) (run_date w d))).
  { intros r w3 E.
    pose proof (write_frame bfp (branch_name_for_date (w_env w) (Some (run_date w d)))
                  (Path_of f) _ Hne Hnt
                  (with_log w2 (mkLog INFO "Generated content at %s" [f] :: w_log w2))
                  Hfile) as Hk.
    now rewrite E in Hk. }
  split; [|split; [reflexivity|split]].
  - destruct Hs as [(w3 & E & ->)|(exc & w3 & E & ->)]; exact (Hkeep _ _ E).
  - apply (path_name_join nd _ f);
      [apply digest_filename_no_slash|apply digest_filename_keep|exact Hf].
  - exists bfp. rewrite Hfp. split; [exact Hb|].
    destruct Hs as [(w3 & E & ->)|(exc & w3 & E & ->)].
    + left. apply write_ok in E. now destruct E as (_ & _ & E & _).
    + right. exists exc. reflexivity.
Qed.

Lemma generate_leaves_digest_sample :
  files (w_fs (snd (generate_daily_content sample_config (Some date_20251007)
                                           sample_world)))
    !! Path_of "/srv/bot/news/digest_20251007.md"
  = Some (_build_content quiet_env date_20251007).
Proof.
  assert (H : generate_daily_content sample_config (Some date_20251007) sample_world
              = (Ok ("feature/news-20251007", "/srv/bot/news/digest_20251007.md"),
                 snd (generate_daily_content sample_config (Some date_20251007)
                                             sample_world)))
    by by_outcome.
  exact (proj1 (generate_leaves_digest _ _ _ _ _ _ H)).
Defined.

(** X12. Without FORK_PATH or without NEWS_DIR, [generate_daily_content]
    raises TypeError before it touches anything: no directory is made, no
    file written, nothing logged. *)
Theorem generate_needs_paths (cfg : Config) (d : option date) (w : World) :
  fork_path cfg = None \/ news_dir cfg = None ->
  generate_daily_content cfg d w = (Raise TypeError, w).
Proof.
  intros H. unfold generate_daily_content, bind, get_env, lift.
  destruct H as [-> | ->]; [reflexivity|].
  destruct (fork_path cfg); reflexivity.
Qed.

Lemma generate_needs_paths_sample :
  generate_daily_content pathless_config None sample_world
  = (Raise TypeError, sample_world).
Proof. apply generate_needs_paths. left. reflexivity. Defined.

(** The base name of the path [generate_daily_content] returns is the
    digest file name of the date. *)
Lemma generate_path_basename (cfg : Config) (d : option date) (w w' : World)
    (b f : string) :
  generate_daily_content cfg d w = (Ok (b, f), w') ->
  os_path_basename f = digest_filename_for_date (w_env w) (Some (run_date w d)).
Proof.
  intros H. apply generate_ok_inv in H. cbn zeta in H.
  destruct H as (nd & fp & w1 & w2 & bfp & _ & _ & Hf & _).
  apply (basename_join nd); [apply digest_filename_no_slash | exact Hf].
Qed.

(** X13. The path [generate_daily_content] returns gives [commit_and_push]
    its default message: "feat: add " followed by the digest file name of
    the date, whatever the directories in front of it; an empty message
    counts as none. *)
Theorem publish_message_names_digest (cfg : Config) (d : option date) (w w' : World)
    (b f : string) :
  generate_daily_content cfg d w = (Ok (b, f), w') ->
  let msg := "feat: add " +:+ digest_filename_for_date (w_env w) (Some (run_date w d)) in
  commit_message_for None f = msg /\ commit_message_for (Some "") f = msg.
Proof.
  intros H. cbn zeta. apply generate_path_basename in H.
  unfold commit_message_for. cbn [py_truthy]. now rewrite H.
Qed.

Lemma publish_message_names_digest_sample :
  commit_message_for None "/srv/bot/news/digest_20251007.md"
  = "feat: add digest_20251007.md".
Proof.
  assert (H : generate_daily_content sample_config (Some date_20251007) sample_world
              = (Ok ("feature/news-20251007", "/srv/bot/news/digest_20251007.md"),
                 snd (generate_daily_content sample_config (Some date_20251007)
                                             sample_world)))
    by by_outcome.
  exact (proj1 (publish_message_names_digest _ _ _ _ _ _ H)).
Defined.

(* ===================================================================== *)
(** ** git_operations.py: branches, remotes and the publication           *)
(* ===================================================================== *)

(** The branches a [create_head] leaves, however it ends. *)
Lemma git_create_head_heads (X : string) (w w' : World) (r : Res unit) :
  git (OpCreateHead X) w = (r, w') ->
  heads (w_repo w') = heads (w_repo w)
  \/ (has_name X (heads (w_repo w)) = false
      /\ heads (w_repo w') = (heads (w_repo w) ++ [(X, head_commit (w_repo w))])%list).
Proof.
  intros H. apply git_inv in H.
  destruct H as [(e & _ & _ & ->)|(r' & _ & E & ->)]; [now left|].
  simpl in E. destruct (assoc X (heads (w_repo w))) as [c|] eqn:Ea.
  - destruct (Nat.eqb c (head_commit (w_repo w))); injection E as <- <-; now left.
  - injection E as <- <-. right. split; [|reflexivity].
    destruct (has_name X (heads (w_repo w))) eqn:Hn; [|reflexivity].
    apply has_name_assoc in Hn. destruct Hn as [v Hv]. congruence.
Qed.

(** X14. Whatever way [_checkout_or_create_branch] ends, it removes and
    repoints no local branch: the branches are those it found, followed by
    the one it was asked for, created at HEAD, when that name was free; and
    no two branches share a name afterwards when none did before. *)
Theorem checkout_or_create_heads (name : option string) (w : World) :
  heads_distinct (w_repo w) ->
  let w' := snd (_checkout_or_create_branch name w) in
  heads_distinct (w_repo w')
  /\ (heads (w_repo w') = heads (w_repo w)
      \/ (has_name (py_str name) (heads (w_repo w)) = false
          /\ heads (w_repo w')
             = (heads (w_repo w) ++ [(py_str name, head_commit (w_repo w))])%list)).
Proof.
  intros Hd. cbn zeta.
  assert (Hcases : heads (w_repo (snd (_checkout_or_create_branch name w)))
                   = heads (w_repo w)
                   \/ (has_name (py_str name) (heads (w_repo w)) = false
                       /\ heads (w_repo (snd (_checkout_or_create_branch name w)))
                          = (heads (w_repo w)
                               ++ [(py_str name, head_commit (w_repo w))])%list)).
  { unfold _checkout_or_create_branch, bind, get_repo.
    destruct (in_heads name (w_repo w)).
    - destruct (git (OpCheckout (py_str name)) w) as [[[]|e|c] w1] eqn:E;
        apply git_checkout_spec in E; destruct E as (Hh & _); left; exact Hh.
    - destruct (git (OpCreateHead (py_str name)) w) as [[[]|e|c] w1] eqn:E1;
        apply git_create_head_heads in E1; cbn [snd]; [|exact E1|exact E1].
      destruct (git (OpCheckout (py_str name)) w1) as [[[]|e|c] w2] eqn:E2;
        apply git_checkout_spec in E2; destruct E2 as (Hh & _);
        cbn [snd log with_log w_repo]; rewrite Hh; exact E1. }
  split; [|exact Hcases].
  unfold heads_distinct in *.
  destruct Hcases as [-> | [Hn ->]]; [exact Hd | now apply heads_distinct_snoc].
Qed.

Lemma checkout_or_create_heads_sample :
  heads_distinct (w_repo sample_world)
  /\ heads_distinct
       (w_repo (snd (_checkout_or_create_branch (Some "bot-logs") sample_world))).
Proof.
  assert (Hd : heads_distinct (w_repo sample_world)).
  { unfold heads_distinct. simpl. constructor; [intros []|constructor]. }
  split; [exact Hd|].
  exact (proj1 (checkout_or_create_heads (Some "bot-logs") sample_world Hd)).
Defined.





(** [_get_remote] returns the name it is given when a remote has it, and
    None otherwise; it changes nothing. *)
Lemma get_remote_spec (name : option string) (w : World) :
  _get_remote name w = (Ok (found_remote name (w_repo w)), w).
Proof.
  unfold _get_remote, found_remote, bind, get_repo, ret. f_equal. f_equal.
  destruct name as [n|]; [|reflexivity].
  induction (remotes (w_repo w)) as [|[k v] l IH]; [reflexivity|].
  simpl. destruct (String.eqb k n) eqn:E; simpl.
  - apply String.eqb_eq in E. now subst.
  - exact IH.
Qed.

(** The body of [sync_with_upstream], by what [_get_remote] finds. *)
Lemma sync_body_run (cfg : Config) (w : World) :
  sync_body cfg w
  = match found_remote (remote_upstream cfg) (w_repo w) with
    | Some u => sync_rest cfg u w
    | None => sync_after_create cfg w
    end.
Proof.
  unfold sync_body. unfold bind at 1.
  rewrite get_remote_spec. cbn beta iota zeta.
  destruct (found_remote (remote_upstream cfg) (w_repo w)) as [u|]; [reflexivity|].
  unfold sync_after_create, create_remote.
  destruct (repo_url_alt cfg) as [url|]; [|reflexivity].
  unfold sync_rest, bind.
  destruct (git (OpCreateRemote (remote_upstream cfg) url) w) as [[[]|e|c] w1];
    reflexivity.
Qed.






Lemma remotes_kept_refl (w : World) : remotes_kept w w.
Proof. split; [reflexivity|]. exists []. split; [reflexivity | constructor]. Qed.

Lemma git_remotes_kept (w0 : World) (op : GitOp) :
  no_create op -> keeps (remotes_kept w0) (git op).
Proof.
  intros Hop w (Hr & calls & Ht & Hcalls).
  destruct (git op w) as [r w'] eqn:E. cbn [snd].
  assert (Htr : exists calls', (op :: trace (w_repo w) = calls' ++ trace (w_repo w0))%list
                               /\ Forall no_create calls').
  { exists (op :: calls). rewrite Ht. split; [reflexivity | now constructor]. }
  apply git_inv in E. destruct E as [(e & _ & _ & ->)|(r' & _ & E & ->)].
  - split; assumption.
  - destruct op; simpl in E, Hop; try contradiction;
      repeat match type of E with
             | context [if ?b then _ else _] => destruct b
             | context [match ?o with Some _ => _ | None => _ end] => destruct o
             end;
      injection E as <- <-; split; assumption.
Qed.

Lemma sync_rest_remotes_kept (cfg : Config) (u : string) (w0 : World) :
  keeps (remotes_kept w0) (sync_rest cfg u).
Proof.
  unfold sync_rest, resolve_mainline.
  apply keeps_bind; [now apply git_remotes_kept|]. intros _.
  apply keeps_bind.
  - apply keeps_bind; [apply keeps_get_repo|]. intros r.
    destruct (in_heads _ r); [now apply git_remotes_kept|].
    destruct (in_refs _ r); [now apply git_remotes_kept|].
    apply keeps_bind; [now apply git_remotes_kept|]. intros _.
    apply keeps_bind; [now apply git_remotes_kept|]. intros _.
    intros w H. exact H.
  - intros _. apply keeps_bind; [now apply git_remotes_kept|]. intros _.
    intros w H. exact H.
Qed.

Lemma sync_remotes_kept (cfg : Config) (n : string) (w : World) :
  remote_upstream cfg = Some n ->
  has_name n (remotes (w_repo w)) = true ->
  remotes_kept w (snd (sync_with_upstream cfg w)).
Proof.
  intros En Hn. unfold sync_with_upstream, try_except.
  rewrite sync_body_run. unfold found_remote. rewrite En, Hn.
  pose proof (sync_rest_remotes_kept cfg n w w (remotes_kept_refl w)) as Hk.
  destruct (sync_rest cfg n w) as [[[]|e|c] w1]; cbn [snd] in *; try exact Hk.
  destruct (is_GitCommandError e); exact Hk.
Qed.

Lemma has_name_snoc {V} (k : string) (v : V) (l : list (string * V)) :
  has_name k (l ++ [(k, v)])%list = true.
Proof.
  unfold has_name. rewrite existsb_app. simpl.
  now rewrite String.eqb_refl, orb_true_r.
Qed.

(** X16. When a remote has the configured upstream name,
    [sync_with_upstream] reuses it: [_get_remote] finds it, no call creates
    a remote, and the remotes are the same afterwards, whatever way the
    synchronisation ends. *)
Theorem upstream_remote_reused (cfg : Config) (n : string) (w : World) :
  remote_upstream cfg = Some n ->
  has_name n (remotes (w_repo w)) = true ->
  fst (_get_remote (remote_upstream cfg) w) = Ok (Some n)
  /\ remotes_kept w (snd (sync_with_upstream cfg w)).
Proof.
  intros En Hn. split; [|now apply (sync_remotes_kept cfg n)].
  rewrite get_remote_spec. unfold found_remote. now rewrite En, Hn.
Qed.

Lemma upstream_remote_reused_sample :
  fst (_get_remote (remote_upstream sample_config) fresh_fork_world)
  = Ok (Some "upstream")
  /\ remotes_kept fresh_fork_world
       (snd (sync_with_upstream sample_config fresh_fork_world)).
Proof.
  exact (upstream_remote_reused sample_config "upstream" fresh_fork_world
           eq_refl eq_refl).
Defined.

(** X17. When no remote has the configured upstream name and the upstream
    URL is known, [sync_with_upstream] adds the remote under that name and
    URL, once: it is there afterwards whatever way the rest of the
    synchronisation ends, and a second synchronisation finds it and creates
    nothing.  (The environment lets the creation through.) *)
Theorem upstream_remote_created (cfg : Config) (n url : string) (w : World) :
  remote_upstream cfg = Some n ->
  repo_url_alt cfg = Some url ->
  has_name n (remotes (w_repo w)) = false ->
  git_fault (w_env w) (record_op (OpCreateRemote (Some n) url) (w_repo w))
            (OpCreateRemote (Some n) url) = None ->
  let w' := snd (sync_with_upstream cfg w) in
  remotes (w_repo w') = (remotes (w_repo w) ++ [(n, url)])%list
  /\ fst (_get_remote (remote_upstream cfg) w') = Ok (Some n)
  /\ remotes_kept w' (snd (sync_with_upstream cfg w')).
Proof.
  intros En Eu Hn Hf. cbn zeta.
  assert (Hr : remotes (w_repo (snd (sync_with_upstream cfg w)))
               = (remotes (w_repo w) ++ [(n, url)])%list).
  { unfold sync_with_upstream, try_except.
    rewrite sync_body_run. unfold found_remote. rewrite En, Hn.
    unfold sync_after_create. rewrite Eu, En.
    unfold bind at 1. rewrite (git_nofault _ _ Hf).
    cbn [git_effect record_op remotes]. rewrite Hn. cbn [fst snd].
    unfold bind at 1. rewrite log_spec. cbn beta iota zeta.
    match goal with
    | |- context [sync_rest cfg ?u ?w1] =>
        pose proof (sync_rest_remotes_kept cfg u w1 w1 (remotes_kept_refl w1)) as Hk;
        destruct (sync_rest cfg u w1) as [[[]|e|c] w2]
    end; cbn [snd] in *; try (destruct Hk as [Hk _]; rewrite Hk; reflexivity).
    destruct (is_GitCommandError e); destruct Hk as [Hk _]; cbn [snd];
      rewrite ?log_spec; cbn [snd with_log w_repo]; rewrite Hk; reflexivity. }
  assert (Hn' : has_name n (remotes (w_repo (snd (sync_with_upstream cfg w)))) = true)
    by (rewrite Hr; apply has_name_snoc).
  split; [exact Hr|]. split.
  - rewrite get_remote_spec. unfold found_remote. rewrite En, Hn'. reflexivity.
  - now apply (sync_remotes_kept cfg n).
Qed.

Lemma upstream_remote_created_sample :
  remotes (w_repo (snd (sync_with_upstream sample_config sample_world)))
  = [("origin", "https://github.com/bot/fork.git");
     ("upstream", "https://github.com/acme/news.git")].
Proof.
  exact (proj1 (upstream_remote_created sample_config "upstream"
                  "https://github.com/acme/news.git" sample_world
                  eq_refl eq_refl eq_refl eq_refl)).
Defined.

(** When the upstream cannot be fetched, the synchronisation returns. *)
Lemma sync_returns_on_git_errors_sample :
  fst (sync_with_upstream sample_config unreachable_world) = Ok tt.
Proof.
  apply sync_returns_on_git_errors.
  - intros r o e. destruct o; cbn; intros H; try discriminate H.
    now injection H as <-.
  - left. discriminate.
Defined.











(* ===================================================================== *)
(** ** What never leaves through sys.exit, and the log archival           *)
(* ===================================================================== *)

Lemma never_exits_bind {A B} (m : M A) (k : A -> M B) :
  never_exits m -> (forall a, never_exits (k a)) -> never_exits (bind m k).
Proof.
  intros Hm Hk w c w' H. apply bind_inv in H.
  destruct H as [(a & w1 & _ & H)|[(e & _ & ?)|(c' & H & _)]]; [|discriminate|].
  - now apply Hk in H.
  - now apply Hm in H.
Qed.

Lemma never_exits_ret {A} (a : A) : never_exits (ret a).
Proof. intros w c w'. discriminate. Qed.

Lemma never_exits_raise {A} (e : ExcClass) : never_exits (@raise A e).
Proof. intros w c w'. discriminate. Qed.

Lemma never_exits_log l f a : never_exits (log l f a).
Proof. intros w c w'. discriminate. Qed.

Lemma never_exits_get_env : never_exits get_env.
Proof. intros w c w'. discriminate. Qed.

Lemma never_exits_get_repo : never_exits get_repo.
Proof. intros w c w'. discriminate. Qed.

Lemma never_exits_get_fs : never_exits get_fs.
Proof. intros w c w'. discriminate. Qed.

Lemma never_exits_git (op : GitOp) : never_exits (git op).
Proof. intros w c w'. apply git_no_exit. Qed.

Lemma never_exits_fsop (op : FsOp) : never_exits (fsop op).
Proof. intros w c w'. apply fsop_no_exit. Qed.

Lemma never_exits_join (a b : option string) : never_exits (lift (os_path_join a b)).
Proof.
  intros w c w'. unfold lift, os_path_join.
  destruct a, b; try discriminate.
  destruct (startswith _ _); [discriminate|]. destruct (_ || _); discriminate.
Qed.

Lemma never_exits_try {A} (body : M A) (catches : ExcClass -> bool)
    (handler : ExcClass -> M A) :
  never_exits body -> (forall e, never_exits (handler e)) ->
  never_exits (try_except body catches handler).
Proof.
  intros Hb Hh w c w' H. unfold try_except in H.
  destruct (body w) as [[a|e|c'] w1] eqn:E.
  - discriminate.
  - destruct (catches e); [now apply Hh in H | discriminate].
  - now apply Hb in E.
Qed.

Lemma never_exits_write (path content : string) :
  never_exits (write_text_file path content).
Proof. intros w c w'. apply write_no_exit. Qed.

Lemma never_exits_checkout_or_create (name : option string) :
  never_exits (_checkout_or_create_branch name).
Proof. intros w c w'. apply checkout_or_create_no_exit. Qed.

(** Goes through a program built from the calls above. *)
Ltac never_exits_step :=
  first
    [ apply never_exits_ret | apply never_exits_raise | apply never_exits_log
    | apply never_exits_get_env | apply never_exits_get_repo | apply never_exits_get_fs
    | apply never_exits_git | apply never_exits_fsop | apply never_exits_join
    | apply never_exits_write | apply never_exits_checkout_or_create
    | apply never_exits_bind; [|intros ?]
    | apply never_exits_try; [|intros ?]
    | match goal with
      | |- never_exits (if ?b then _ else _) => destruct b
      | |- never_exits (match ?o with Some _ => _ | None => _ end) => destruct o
      end ].

Lemma never_exits_relpath (path start : string) : never_exits (os_path_relpath path start).
Proof. unfold os_path_relpath. repeat never_exits_step. Qed.

Lemma never_exits_repo_remote (name : string) : never_exits (repo_remote name).
Proof. unfold repo_remote. repeat never_exits_step. Qed.

Lemma never_exits_init (cfg : Config) : never_exits (GitManager_init cfg None).
Proof. unfold GitManager_init. repeat never_exits_step. Qed.

Lemma never_exits_sync (cfg : Config) : never_exits (sync_with_upstream cfg).
Proof.
  unfold sync_with_upstream, sync_body, _get_remote, create_remote, resolve_mainline.
  repeat never_exits_step.
Qed.

Lemma never_exits_generate (cfg : Config) (d : option date) :
  never_exits (generate_daily_content cfg d).
Proof. unfold generate_daily_content, ensure_dir. repeat never_exits_step. Qed.

Lemma never_exits_commit_and_push (b f : string) (m : option string) :
  never_exits (commit_and_push b f m).
Proof.
  unfold commit_and_push, publish_body. cbn zeta.
  repeat never_exits_step; first [apply never_exits_relpath | apply never_exits_repo_remote].
Qed.

Lemma never_exits_push_logs_body (cfg : Config) :
  never_exits
    (let branch_name := log_branch cfg in
     _checkout_or_create_branch branch_name ;;
     e <- get_env ;;
     logs_dir <- lift (os_path_join (Some (getcwd e)) (Some "logs")) ;;
     f <- get_fs ;;
     if negb (path_exists f (Path_of logs_dir)) then
       log INFO "No logs to push." []
     else
       r <- get_repo ;;
       rel_logs_dir <- os_path_relpath logs_dir (working_tree_dir r) ;;
       git (OpAdd rel_logs_dir) ;;
       git (OpCommit ("chore: update logs " +:+ utcnow_iso e)) ;;
       origin <- repo_remote "origin" ;;
       git (OpPush origin (py_str branch_name)) ;;
       log INFO "Logs pushed to branch %s" [py_str branch_name]).
Proof.
  cbn zeta.
  repeat never_exits_step; first [apply never_exits_relpath | apply never_exits_repo_remote].
Qed.

(** [push_logs_to_branch] returns, whatever happens. *)
Lemma push_logs_returns (cfg : Config) (w : World) :
  fst (push_logs_to_branch cfg w) = Ok tt.
Proof.
  unfold push_logs_to_branch, try_except.
  match goal with
  | |- fst (match ?b with _ => _ end) = _ => destruct b as [[[]|e|c] w1] eqn:E
  end.
  - reflexivity.
  - reflexivity.
  - exfalso. exact (never_exits_push_logs_body cfg w c w1 E).
Qed.

Lemma never_exits_push_logs (cfg : Config) : never_exits (push_logs_to_branch cfg).
Proof.
  intros w c w' H. pose proof (push_logs_returns cfg w) as Hp.
  rewrite H in Hp. discriminate.
Qed.

(** X19. [push_logs_to_branch] never raises and never exits: whatever
    fails (the branch, the staging, the commit, a missing origin, the
    push), the call returns normally, and the last line it has logged
    tells how it ended: there were no logs, the logs were pushed, or a
    warning with the exception that stopped it. *)
Theorem push_logs_never_raises (cfg : Config) (w : World) :
  fst (push_logs_to_branch cfg w) = Ok tt
  /\ exists l rest, w_log (snd (push_logs_to_branch cfg w)) = l :: rest
                    /\ push_logs_line cfg l.
Proof.
  split; [apply push_logs_returns|].
  unfold push_logs_to_branch, try_except.
  match goal with
  | |- context [match ?b with _ => _ end] => destruct b as [[[]|e|c] w1] eqn:E
  end.
  - cbn [snd]. cbn zeta in E.
    apply bind_inv in E.
    destruct E as [([] & wa & _ & E)|[(e' & _ & ?)|(c & _ & ?)]]; try discriminate.
    unfold bind at 1, get_env in E. cbn beta iota zeta in E.
    apply bind_inv in E.
    destruct E as [(logs_dir & wb & _ & E)|[(e' & _ & ?)|(c & _ & ?)]]; try discriminate.
    unfold bind at 1, get_fs in E. cbn beta iota zeta in E.
    destruct (negb _).
    + rewrite log_spec in E. injection E as <-.
      eexists. eexists. split; [reflexivity|]. now left.
    + unfold bind at 1, get_repo in E. cbn beta iota zeta in E.
      apply bind_inv in E.
      destruct E as [(rel & wc & _ & E)|[(e' & _ & ?)|(c & _ & ?)]]; try discriminate.
      apply bind_inv in E.
      destruct E as [([] & wd & _ & E)|[(e' & _ & ?)|(c & _ & ?)]]; try discriminate.
      apply bind_inv in E.
      destruct E as [([] & we & _ & E)|[(e' & _ & ?)|(c & _ & ?)]]; try discriminate.
      apply bind_inv in E.
      destruct E as [(origin & wf & _ & E)|[(e' & _ & ?)|(c & _ & ?)]]; try discriminate.
      apply bind_inv in E.
      destruct E as [([] & wg & _ & E)|[(e' & _ & ?)|(c & _ & ?)]]; try discriminate.
      rewrite log_spec in E. injection E as <-.
      eexists. eexists. split; [reflexivity|]. right. now left.
  - cbn [is_Exception]. rewrite log_spec. cbn [snd].
    eexists. eexists. split; [reflexivity|]. right. right. now exists e.
  - exfalso. exact (never_exits_push_logs_body cfg w c w1 E).
Qed.




(* ===================================================================== *)
(** ** logger.py and main.py: the logger and the exit status              *)
(* ===================================================================== *)

(** With handlers already attached, [setup_logger] adds none, logs nothing
    and changes no file. *)
Lemma setup_logger_with_handlers (w : World) (r : Res unit) (w2 : World) :
  (0 < w_handlers w)%nat ->
  setup_logger w = (r, w2) ->
  same_but_fs w w2 /\ files (w_fs w2) = files (w_fs w).
Proof.
  intros Hh H. unfold setup_logger in H.
  unfold bind at 1 in H.
  destruct (fsop (FsMkdir (Path_of "logs") false) w) as [r0 wa] eqn:E.
  assert (Hsame : same_but_fs w wa /\ files (w_fs wa) = files (w_fs w)).
  { apply fsop_inv in E. destruct E as [(e & _ & _ & ->)|(f' & _ & E & ->)].
    - repeat split.
    - split; [repeat split|]. cbn [w_fs with_fs]. exact (mkdir_files _ _ _ _ _ E). }
  destruct r0 as [[]|e|c].
  - unfold bind, get_env in H. cbn beta iota zeta in H.
    destruct Hsame as [(He & Hr & Hl & Hn) Hf].
    assert (Hlt : (0 <? w_handlers wa)%nat = true)
      by (rewrite Hn; now apply Nat.ltb_lt).
    rewrite Hlt in H. unfold ret in H. injection H as <- <-.
    split; [repeat split; assumption | exact Hf].
  - injection H as <- <-. exact Hsame.
  - injection H as <- <-. exact Hsame.
Qed.

(** X21. [setup_logger] attaches its handlers once.  When it returns the
    logger has handlers; on a logger that had none, these are the two it
    attaches, the log file logs/run_<timestamp>.log exists and the one line
    logged names it; and any further call adds no handler, logs nothing and
    changes no file. *)
Theorem setup_logger_handlers_once (w w1 : World) :
  setup_logger w = (Ok tt, w1) ->
  (0 < w_handlers w1)%nat
  /\ (w_handlers w = 0%nat ->
      w_handlers w1 = 2%nat
      /\ exists log_file,
           log_file = "logs/run_" +:+ now_stamp (w_env w) +:+ ".log"
           /\ w_log w1 = mkLog INFO "Logger initialized: %s" [log_file] :: w_log w
           /\ is_file (w_fs w1) (Path_of log_file) = true)
  /\ (forall r w2, setup_logger w1 = (r, w2) ->
        w_handlers w2 = w_handlers w1 /\ w_log w2 = w_log w1
        /\ files (w_fs w2) = files (w_fs w1)).
Proof.
  intros H.
  assert (Hfirst : (0 < w_handlers w1)%nat
                   /\ (w_handlers w = 0%nat ->
                       w_handlers w1 = 2%nat
                       /\ exists log_file,
                            log_file = "logs/run_" +:+ now_stamp (w_env w) +:+ ".log"
                            /\ w_log w1
                               = mkLog INFO "Logger initialized: %s" [log_file] :: w_log w
                            /\ is_file (w_fs w1) (Path_of log_file) = true)).
  { unfold setup_logger in H. apply bind_inv in H.
    destruct H as [([] & wa & Hmk & H)|[(e' & _ & ?)|(c & _ & ?)]]; try discriminate.
    apply fsop_inv in Hmk.
    destruct Hmk as [(e & _ & ? & _)|(f' & _ & _ & ->)]; [discriminate|].
    unfold bind at 1, get_env in H. cbn beta iota zeta in H.
    unfold bind at 1 in H. cbn beta iota zeta in H.
    cbn [w_handlers with_fs w_env] in H.
    destruct (0 <? w_handlers w)%nat eqn:Hh.
    - unfold ret in H. injection H as <-. cbn [w_handlers with_fs].
      apply Nat.ltb_lt in Hh. split; [exact Hh | lia].
    - apply bind_inv in H.
      destruct H as [([] & wb & Hop & H)|[(e' & _ & ?)|(c & _ & ?)]]; try discriminate.
      unfold bind at 1 in H. cbn beta iota zeta in H.
      rewrite log_spec in H. injection H as <-.
      cbn [w_handlers with_log with_handlers w_log w_fs].
      split; [lia|]. intros _. split; [reflexivity|].
      eexists. split; [reflexivity|].
      apply fsop_inv in Hop.
      destruct Hop as [(e & _ & ? & _)|(f2 & _ & E & ->)]; [discriminate|].
      cbn [w_log with_fs w_fs]. split; [reflexivity|].
      cbn [fs_effect w_fs with_fs] in E.
      destruct (is_dir f' _ || _); [discriminate|].
      unfold is_file. apply bool_decide_eq_true.
      destruct (files f' !! _) as [old|] eqn:Eo; injection E as <-; cbn [files].
      + rewrite Eo. eauto.
      + rewrite lookup_insert_eq. eauto. }
  destruct Hfirst as [Hpos Hzero]. split; [exact Hpos|]. split; [exact Hzero|].
  intros r w2 H2.
  destruct (setup_logger_with_handlers w1 r w2 Hpos H2) as [(_ & _ & Hl & Hn) Hf].
  auto.
Qed.

Lemma setup_logger_handlers_once_sample :
  let w1 := snd (setup_logger sample_world) in
  w_handlers w1 = 2%nat /\ w_handlers (snd (setup_logger w1)) = 2%nat.
Proof.
  cbn zeta.
  assert (H : setup_logger sample_world = (Ok tt, snd (setup_logger sample_world)))
    by by_outcome.
  destruct (setup_logger_handlers_once _ _ H) as (_ & Hzero & Hagain).
  destruct (Hzero eq_refl) as [H2 _]. split; [exact H2|].
  destruct (Hagain _ _ (surjective_pairing _)) as [Hh _].
  now rewrite Hh.
Defined.

Lemma never_exits_setup_logger : never_exits setup_logger.
Proof.
  unfold setup_logger.
  apply never_exits_bind; [apply never_exits_fsop|]. intros _.
  apply never_exits_bind; [apply never_exits_get_env|]. intros e.
  apply never_exits_bind; [intros w c w'; discriminate|]. intros h.
  destruct (0 <? h)%nat; [apply never_exits_ret|].
  apply never_exits_bind; [apply never_exits_fsop|]. intros _.
  apply never_exits_bind; [intros w c w'; discriminate|]. intros _.
  apply never_exits_log.
Qed.

Lemma never_exits_workflow (cfg : Config) : never_exits (workflow cfg).
Proof.
  unfold workflow.
  apply never_exits_bind; [apply never_exits_init|]. intros _.
  apply never_exits_bind; [apply never_exits_sync|]. intros _.
  apply never_exits_bind; [apply never_exits_generate|]. intros bf.
  apply never_exits_bind; [apply never_exits_commit_and_push|]. intros _.
  apply never_exits_bind; [apply never_exits_log|]. intros _.
  apply never_exits_bind; [|intros _; apply never_exits_log].
  destruct (enable_log_branch cfg);
    [apply never_exits_push_logs | apply never_exits_ret].
Qed.

(** [main] once the logger is set up, by the outcome of the workflow. *)
Lemma main_run (w w0 : World) :
  setup_logger w = (Ok tt, w0) ->
  main w
  = match workflow (Config_init (w_env w0)) (with_log w0 (starting_line :: w_log w0)) with
    | (Ok _, w1) => (Ok tt, w1)
    | (Raise e, w1) =>
        (Exit 1, with_log w1 (mkLog EXCEPTION "Fatal error during workflow: %s"
                                    [exc_name e] :: w_log w1))
    | (Exit c, w1) => (Exit c, w1)
    end.
Proof.
  intros H0. unfold main. run_bind H0.
  unfold bind at 1, get_env. cbn beta iota zeta.
  unfold bind at 1. rewrite log_spec. cbn beta iota zeta.
  unfold try_except. fold starting_line. cbn [w_env with_log].
  destruct (workflow _ _) as [[[]|e|c] w1]; reflexivity.
Qed.

Lemma main_without_logger (w w0 : World) (e : ExcClass) :
  setup_logger w = (Raise e, w0) -> main w = (Raise e, w0).
Proof. intros H0. unfold main. run_bind H0. reflexivity. Qed.

(** X22. The exit status of a run of [main] is 0 or 1.  It is 0 exactly
    when the logger was set up and the workflow returned; an exception of
    the workflow never leaves [main] as such (it becomes [sys.exit(1)]):
    the only exception [main] can raise is one of [setup_logger], which
    runs before the [try]. *)
Theorem main_exit_status (w : World) :
  (exit_code (fst (main w)) = 0%nat \/ exit_code (fst (main w)) = 1%nat)
  /\ (exit_code (fst (main w)) = 0%nat <->
      exists w0,
        setup_logger w = (Ok tt, w0)
        /\ fst (workflow (Config_init (w_env w0))
                         (with_log w0 (starting_line :: w_log w0))) = Ok tt)
  /\ (forall e, fst (main w) = Raise e <-> fst (setup_logger w) = Raise e).
Proof.
  destruct (setup_logger w) as [[[]|e|c] w0] eqn:H0.
  - rewrite (main_run w w0 H0).
    destruct (workflow _ _) as [[[]|e|c] w1] eqn:Hw; cbn [fst exit_code].
    + split; [now left|]. split.
      * split; [intros _; exists w0; now rewrite Hw | reflexivity].
      * intros e. split; discriminate.
    + split; [now right|]. split.
      * split; [discriminate|]. intros (w0' & [= <-] & H). rewrite Hw in H.
        discriminate.
      * intros e'. split; discriminate.
    + now apply never_exits_workflow in Hw.
  - rewrite (main_without_logger w w0 e H0). cbn [fst exit_code].
    split; [now right|]. split.
    + split; [discriminate | intros (w0' & [=] & _)].
    + intros e'. reflexivity.
  - now apply never_exits_setup_logger in H0.
Qed.

(** X23. The workflow of [main] returns exactly when its four fatal steps
    return one after the other: the repository is opened, the
    synchronisation returns, the content is generated, the branch is
    committed and pushed.  The log archival, enabled or not, failing or
    not, plays no part. *)
Theorem workflow_returns_iff (cfg : Config) (w : World) :
  fst (workflow cfg w) = Ok tt
  <-> exists w1 w2 b f w3 w4,
        GitManager_init cfg None w = (Ok tt, w1)
        /\ sync_with_upstream cfg w1 = (Ok tt, w2)
        /\ generate_daily_content cfg None w2 = (Ok (b, f), w3)
        /\ commit_and_push b f None w3 = (Ok tt, w4).
Proof.
  split.
  - destruct (workflow cfg w) as [r w'] eqn:H. cbn [fst]. intros ->.
    unfold workflow in H.
    apply bind_inv in H.
    destruct H as [([] & w1 & H1 & H)|[(e' & _ & ?)|(c & _ & ?)]]; try discriminate.
    apply bind_inv in H.
    destruct H as [([] & w2 & H2 & H)|[(e' & _ & ?)|(c & _ & ?)]]; try discriminate.
    apply bind_inv in H.
    destruct H as [([b f] & w3 & H3 & H)|[(e' & _ & ?)|(c & _ & ?)]]; try discriminate.
    cbn [fst snd] in H.
    apply bind_inv in H.
    destruct H as [([] & w4 & H4 & H)|[(e' & _ & ?)|(c & _ & ?)]]; try discriminate.
    exists w1, w2, b, f, w3, w4. auto.
  - intros (w1 & w2 & b & f & w3 & w4 & H1 & H2 & H3 & H4).
    unfold workflow. run_bind H1. run_bind H2. run_bind H3. cbn [fst snd].
    run_bind H4. unfold bind at 1. rewrite log_spec. cbn beta iota zeta.
    unfold bind at 1.
    destruct (enable_log_branch cfg).
    + pose proof (push_logs_returns cfg
                    (with_log w4 (mkLog INFO "Content branch created and pushed: %s" [b]
                                    :: w_log w4))) as Hp.
      destruct (push_logs_to_branch cfg _) as [r w5]. cbn [fst] in Hp. subst r.
      reflexivity.
    + reflexivity.
Qed.











Lemma grown_refl (w : World) : grown w w.
Proof. split; exists []; reflexivity. Qed.






